(** * Skyline: wallet ledger, booking/deposit coordinators and the WebSocket notifier

    A shallow embedding of the balance-mutation and notification core of the
    server ([server/storage.ts], the module of [registerRoutes],
    [server/auth.ts], [shared/schema.ts]).

    Conventions of the model.
    - Money.  The columns [balance_usd], [price_usd] and [amount_usd] are
      [decimal(12,2)]; a stored value is represented by its number of cents,
      an integer of [Z], and a write of a value beyond 9999999999.99 in either
      direction is refused by the database.  An amount in a request is
      represented by its number of cents as well: the model covers the
      requests whose amounts are numbers with at most two decimals, and leaves
      out those that carry a fraction of a cent or no number at all.
      [parseFloat] of a stored value is that same amount, and the SQL
      expressions [balance_usd + x] / [balance_usd - x] are the integer sum
      and difference.
    - Database.  Every table is a finite map or a list of rows; a row id of
      an identity column is its position in the list.  A storage call is a
      computation in a state-and-exception monad over the database; a
      statement outside [db.transaction] commits on its own, so what it wrote
      stays written when a later statement throws.  The checks the database
      makes on a write (enum labels, column widths, the range of a decimal,
      keys) are part of the statement; the text of its error messages is not
      taken from the source.
    - Requests.  A route handler is a computation over the whole server
      state (database, channel map, handshake tokens, connections) that
      returns the HTTP response.  Random and clock values ([Math.random],
      [Date.now]) are inputs of the step that reads them. *)

From Stdlib Require Import ZArith QArith Ascii String.
From stdpp Require Import base option list gmap strings fin_maps pretty.

Local Open Scope string_scope.
Local Open Scope list_scope.
Local Open Scope Z_scope.

(** ** Exceptions and the state-and-exception monad *)

(** [new Error(msg)]: the handlers only ever look at [error.message]. *)
Record exn := Error { message : string }.

Inductive result (A : Type) :=
| Ok (a : A)
| Throw (e : exn).
Arguments Ok {A} a.
Arguments Throw {A} e.

(** An [async] function over a state [S]: it returns a value or throws, and
    leaves a state behind in both cases. *)
Definition St (S A : Type) : Type := S -> result A * S.

Definition st_ret {S A} (a : A) : St S A := fun s => (Ok a, s).

Definition st_bind {S A B} (m : St S A) (k : A -> St S B) : St S B :=
  fun s =>
    match m s with
    | (Ok a, s') => k a s'
    | (Throw e, s') => (Throw e, s')
    end.

Definition throw {S A} (e : exn) : St S A := fun s => (Throw e, s).

Definition get_state {S} : St S S := fun s => (Ok s, s).

Definition modify_state {S} (f : S -> S) : St S unit := fun s => (Ok tt, f s).

(** [try { m } catch (error) { h error }] *)
Definition try_catch {S A} (m : St S A) (h : exn -> St S A) : St S A :=
  fun s =>
    match m s with
    | (Ok a, s') => (Ok a, s')
    | (Throw e, s') => h e s'
    end.

#[global] Instance St_ret {S} : MRet (St S) := fun A => @st_ret S A.
#[global] Instance St_bind {S} : MBind (St S) := fun A B k m => @st_bind S A B m k.

(** ** Data model ([shared/schema.ts]) *)

Inductive Role := RoleUser | RoleAdmin.
Inductive BookingStatus := BookingPending | BookingConfirmed | BookingCompleted | BookingCancelled.
Inductive DepositStatus := DepositPending | DepositApproved | DepositRejected.
Inductive CampaignStatus :=
  CampaignPending | CampaignNegotiating | CampaignApproved | CampaignRejected | CampaignCompleted.
Inductive ThreadType := ThreadBooking | ThreadCampaign.
Inductive Sender := SenderUser | SenderAdmin.

#[global] Instance Role_eq_dec : EqDecision Role.
Proof. solve_decision. Defined.
#[global] Instance BookingStatus_eq_dec : EqDecision BookingStatus.
Proof. solve_decision. Defined.
#[global] Instance DepositStatus_eq_dec : EqDecision DepositStatus.
Proof. solve_decision. Defined.
#[global] Instance ThreadType_eq_dec : EqDecision ThreadType.
Proof. solve_decision. Defined.

(** The labels of the Postgres enums; a string that is no label is rejected
    by the database when it is bound to an enum column. *)
Definition booking_status_of_string (s : string) : option BookingStatus :=
  if decide (s = "pending") then Some BookingPending
  else if decide (s = "confirmed") then Some BookingConfirmed
  else if decide (s = "completed") then Some BookingCompleted
  else if decide (s = "cancelled") then Some BookingCancelled
  else None.

Definition deposit_status_of_string (s : string) : option DepositStatus :=
  if decide (s = "pending") then Some DepositPending
  else if decide (s = "approved") then Some DepositApproved
  else if decide (s = "rejected") then Some DepositRejected
  else None.

Definition campaign_status_of_string (s : string) : option CampaignStatus :=
  if decide (s = "pending") then Some CampaignPending
  else if decide (s = "negotiating") then Some CampaignNegotiating
  else if decide (s = "approved") then Some CampaignApproved
  else if decide (s = "rejected") then Some CampaignRejected
  else if decide (s = "completed") then Some CampaignCompleted
  else None.

Definition thread_type_of_string (s : string) : option ThreadType :=
  if decide (s = "booking") then Some ThreadBooking
  else if decide (s = "campaign") then Some ThreadCampaign
  else None.

Record User := mkUser {
  balanceUsd : Z;
  role : Role;
  userStatus : string;
}.

Record Celebrity := mkCelebrity {
  celebName : string;
  celebPriceUsd : Z;
  celebStatus : string;
}.

Record Booking := mkBooking {
  bookingUserId : string;
  bookingCelebrityId : nat;
  bookingPriceUsd : Z;
  bookingStatus : BookingStatus;
  eventDetails : string;
}.

Record Campaign := mkCampaign {
  campaignUserId : string;
  campaignCelebrityId : nat;
  campaignStatus : CampaignStatus;
}.

(** The columns [crypto_amount_expected] and [wallet_address] of a deposit,
    which no later step reads, are left out. *)
Record Deposit := mkDeposit {
  depositUserId : string;
  amountUsd : Z;
  coin : string;
  txHash : option string;
  depositStatus : DepositStatus;
}.

Record Message := mkMessage {
  threadId : string;
  threadType : ThreadType;
  referenceId : nat;
  sender : Sender;
  senderUserId : string;
  text : string;
}.

(** The [message] column of a notification (a sentence for the reader) is
    left out. *)
Record Notification := mkNotification {
  notifUserId : string;
  title : string;
  notifType : string;
  isRead : bool;
}.

Record AdminLog := mkAdminLog {
  adminId : string;
  action : string;
}.

(** The tables.  [users] is keyed by the primary key [id]; the other tables
    have an identity column, modelled by the position of the row. *)
Record DB := mkDB {
  users : gmap string User;
  celebrities : list Celebrity;
  bookings : list Booking;
  campaigns : list Campaign;
  deposits : list Deposit;
  messages : list Message;
  notifications : list Notification;
  adminLogs : list AdminLog;
}.

Definition set_users (f : gmap string User -> gmap string User) (d : DB) : DB :=
  mkDB (f (users d)) (celebrities d) (bookings d) (campaigns d) (deposits d)
       (messages d) (notifications d) (adminLogs d).
Definition set_celebrities (f : list Celebrity -> list Celebrity) (d : DB) : DB :=
  mkDB (users d) (f (celebrities d)) (bookings d) (campaigns d) (deposits d)
       (messages d) (notifications d) (adminLogs d).
Definition set_campaigns (f : list Campaign -> list Campaign) (d : DB) : DB :=
  mkDB (users d) (celebrities d) (bookings d) (f (campaigns d)) (deposits d)
       (messages d) (notifications d) (adminLogs d).
Definition set_bookings (f : list Booking -> list Booking) (d : DB) : DB :=
  mkDB (users d) (celebrities d) (f (bookings d)) (campaigns d) (deposits d)
       (messages d) (notifications d) (adminLogs d).
Definition set_deposits (f : list Deposit -> list Deposit) (d : DB) : DB :=
  mkDB (users d) (celebrities d) (bookings d) (campaigns d) (f (deposits d))
       (messages d) (notifications d) (adminLogs d).
Definition set_messages (f : list Message -> list Message) (d : DB) : DB :=
  mkDB (users d) (celebrities d) (bookings d) (campaigns d) (deposits d)
       (f (messages d)) (notifications d) (adminLogs d).
Definition set_notifications (f : list Notification -> list Notification) (d : DB) : DB :=
  mkDB (users d) (celebrities d) (bookings d) (campaigns d) (deposits d)
       (messages d) (f (notifications d)) (adminLogs d).
Definition set_adminLogs (f : list AdminLog -> list AdminLog) (d : DB) : DB :=
  mkDB (users d) (celebrities d) (bookings d) (campaigns d) (deposits d)
       (messages d) (notifications d) (f (adminLogs d)).

(** ** The storage layer ([server/storage.ts], class [DatabaseStorage]) *)

(** [db.transaction(body)]: the writes of [body] are committed when it
    returns and discarded when it throws. *)
Definition transaction {A} (body : St DB A) : St DB A :=
  fun d =>
    match body d with
    | (Ok a, d') => (Ok a, d')
    | (Throw e, _) => (Throw e, d)
    end.

Definition getUser (id : string) : St DB (option User) :=
  d ← get_state; mret (users d !! id).

(** What the database refuses.  A [decimal(12,2)] holds at most ten digits
    before the point; a [varchar(n)] holds at most [n] characters. *)
Definition columnMax : Z := 999999999999.

Definition fitsColumn (v : Z) : bool := bool_decide (- columnMax ≤ v ≤ columnMax).

Definition fitsWidth (n : nat) (s : string) : bool := bool_decide (String.length s ≤ n)%nat.

Definition numericOverflow : exn := Error "numeric field overflow".
Definition valueTooLong : exn := Error "value too long for type character varying".
Definition foreignKeyViolation : exn :=
  Error "insert or update on table violates foreign key constraint".
Definition duplicateKey : exn := Error "duplicate key value violates unique constraint".
Definition notNullViolation : exn := Error "null value in column violates not-null constraint".

(** [set(values)] of the query builder throws when [values] names no column. *)
Definition noValuesToSet : exn := Error "No values to set".

Definition setBalance (v : Z) (u : User) : User :=
  mkUser v (role u) (userStatus u).

(** [set balanceUsd = balanceUsd + amount where id = ...]; no row, no change,
    and the caller gets [undefined].  The sum is computed for the row that is
    updated, and refused when the column cannot hold it. *)
Definition updateUserBalance (id : string) (amount : Z) : St DB (option User) :=
  d ← get_state;
  match users d !! id with
  | Some user =>
      if fitsColumn (balanceUsd user + amount) then
        modify_state (set_users (alter (fun u => setBalance (balanceUsd u + amount) u) id));;
        d ← get_state; mret (users d !! id)
      else throw numericOverflow
  | None => mret None
  end.

Definition getCelebrity (id : nat) : St DB (option Celebrity) :=
  d ← get_state; mret (celebrities d !! id).

(** [name] is [varchar(255)] and [price_usd] is [decimal(12,2)]. *)
Definition createCelebrity (data : Celebrity) : St DB Celebrity :=
  if negb (fitsWidth 255 (celebName data)) then throw valueTooLong
  else if negb (fitsColumn (celebPriceUsd data)) then throw numericOverflow
  else
    modify_state (set_celebrities (fun cs => cs ++ [data]));;
    mret data.

(** [Partial<Celebrity>], as it comes in a request body: the three columns of
    the model, and whether the body names one of the columns that the model
    leaves out ([category], [image_url], [bio]), with a value that is taken
    to be accepted. *)
Record PartialCelebrity := mkPartialCelebrity {
  dataName : option string;
  dataPriceUsd : option Z;
  dataCelebStatus : option string;
  dataCelebOther : bool;
}.

Definition applyPartialCelebrity (data : PartialCelebrity) (c : Celebrity) : Celebrity :=
  mkCelebrity (default (celebName c) (dataName data))
              (default (celebPriceUsd c) (dataPriceUsd data))
              (default (celebStatus c) (dataCelebStatus data)).

Definition namesCelebrityColumn (data : PartialCelebrity) : bool :=
  bool_decide (is_Some (dataName data)) || bool_decide (is_Some (dataPriceUsd data))
  || bool_decide (is_Some (dataCelebStatus data)) || dataCelebOther data.

(** The values of [data] are bound to their columns before the rows are
    looked for, so a value that a column cannot hold is refused whether or not
    the row exists. *)
Definition updateCelebrity (id : nat) (data : PartialCelebrity) : St DB (option Celebrity) :=
  if negb (namesCelebrityColumn data) then throw noValuesToSet
  else if negb (from_option (fitsWidth 255) true (dataName data)) then throw valueTooLong
  else if negb (from_option fitsColumn true (dataPriceUsd data)) then throw numericOverflow
  else
    modify_state (set_celebrities (alter (applyPartialCelebrity data) id));;
    d ← get_state; mret (celebrities d !! id).

Definition deleteCelebrity (id : nat) : St DB bool :=
  modify_state (set_celebrities
    (alter (applyPartialCelebrity (mkPartialCelebrity None None (Some "deleted") false)) id));;
  mret true.

Definition getBooking (id : nat) : St DB (option Booking) :=
  d ← get_state; mret (bookings d !! id).

(** [eventDate] of an [InsertBooking]: [null], a date, or the [Invalid Date]
    that [new Date(text)] gives for a text that is no date. *)
Inductive EventDate := NoDate | DateOf (time : Z) | InvalidDate.

#[global] Instance EventDate_eq_dec : EqDecision EventDate.
Proof. solve_decision. Defined.

(** The [InsertBooking] record handed to an insert: the row, and the value
    for the column [event_date], which no later step reads and the rows of
    the model leave out. *)
Record InsertBooking := mkInsertBooking {
  bookingRow : Booking;
  bookingEventDate : EventDate;
}.

(** [insert(bookings).values(data).returning()].  An invalid date cannot be
    written as a timestamp, and the query builder throws; [price_usd] is
    [decimal(12,2)]; [user_id] and [celebrity_id] are foreign keys. *)
Definition insertBooking (data : InsertBooking) : St DB Booking :=
  if decide (bookingEventDate data = InvalidDate) then throw (Error "Invalid time value")
  else if negb (fitsColumn (bookingPriceUsd (bookingRow data))) then throw numericOverflow
  else
    d ← get_state;
    match users d !! bookingUserId (bookingRow data),
          celebrities d !! bookingCelebrityId (bookingRow data) with
    | Some _, Some _ =>
        modify_state (set_bookings (fun bs => bs ++ [bookingRow data]));;
        mret (bookingRow data)
    | _, _ => throw foreignKeyViolation
    end.

Definition createBooking (data : InsertBooking) : St DB Booking := insertBooking data.

(** The first two statements of the booking transaction:
    [select().from(users).where(eq(users.id, userId)).for("update")], which
    takes the lock of the row it returns and keeps it until the transaction
    ends, and [set balanceUsd = balanceUsd - priceNum where id = userId]. *)
Definition selectForUpdate (userId : string) : St DB (option User) :=
  d ← get_state; mret (users d !! userId).

Definition deductBalance (userId : string) (priceNum : Z) : St DB (option User) :=
  d ← get_state;
  match users d !! userId with
  | Some user =>
      if fitsColumn (balanceUsd user - priceNum) then
        modify_state (set_users
          (alter (fun u => setBalance (balanceUsd u - priceNum) u) userId));;
        d ← get_state; mret (users d !! userId)
      else throw numericOverflow
  | None => mret None
  end.

Definition createBookingWithBalanceDeduction (userId : string) (data : InsertBooking)
  : St DB (Booking * option User) :=
  let priceNum := bookingPriceUsd (bookingRow data) in
  transaction (
    user ← selectForUpdate userId;
    match user with
    | None => throw (Error "User not found")
    | Some user =>
        let balanceNum := balanceUsd user in
        if decide (balanceNum < priceNum) then
          throw (Error "Insufficient wallet balance")
        else
          updatedUser ← deductBalance userId priceNum;
          booking ← insertBooking data;
          mret (booking, updatedUser)
    end).

(** *** Two booking transactions for one user

    [createBookingWithBalanceDeduction] called twice for the same user, the
    statements of the two transactions taking turns in any order.  A
    transaction works on the committed tables and its own writes, which
    become the committed tables when it commits and are dropped when it
    throws.  [selectForUpdate] returns the user's row only when no other
    transaction holds the lock of that row; until then the call waits. *)










(** [updateUser(id, data: Partial<User>)]: the fields present in [data] are
    written as they are, the primary key [id] among them.  A role is a label
    of the enum, and of the columns that the model leaves out every value is
    taken to be accepted. *)
Record PartialUser := mkPartialUser {
  dataId : option string;
  dataBalanceUsd : option Z;
  dataRole : option Role;
  dataStatus : option string;
}.

Definition applyPartialUser (data : PartialUser) (u : User) : User :=
  mkUser (default (balanceUsd u) (dataBalanceUsd data))
         (default (role u) (dataRole data))
         (default (userStatus u) (dataStatus data)).

(** Some row of another table refers to the user [id] by a foreign key. *)
Definition referencesUser (d : DB) (id : string) : Prop :=
  Exists (fun b => bookingUserId b = id) (bookings d)
  ∨ Exists (fun c => campaignUserId c = id) (campaigns d)
  ∨ Exists (fun dep => depositUserId dep = id) (deposits d)
  ∨ Exists (fun m => senderUserId m = id) (messages d)
  ∨ Exists (fun n => notifUserId n = id) (notifications d)
  ∨ Exists (fun l => adminId l = id) (adminLogs d).

#[global] Instance referencesUser_dec d id : Decision (referencesUser d id).
Proof. unfold referencesUser. apply _. Defined.

(** [update users set ... where id = ...].  A new [id] renames the row: the
    database refuses it when the new key is taken, and when a row of another
    table still refers to the old one. *)
Definition updateUser (id : string) (data : PartialUser) : St DB (option User) :=
  if negb (from_option fitsColumn true (dataBalanceUsd data)) then throw numericOverflow
  else
    d ← get_state;
    match dataId data, users d !! id with
    | Some newId, Some user =>
        if decide (newId = id) then
          modify_state (set_users (alter (applyPartialUser data) id));;
          d ← get_state; mret (users d !! id)
        else if decide (is_Some (users d !! newId)) then throw duplicateKey
        else if decide (referencesUser d id) then throw foreignKeyViolation
        else
          modify_state (set_users
            (fun us => <[newId := applyPartialUser data user]> (delete id us)));;
          mret (Some (applyPartialUser data user))
    | _, _ =>
        modify_state (set_users (alter (applyPartialUser data) id));;
        d ← get_state; mret (users d !! id)
    end.

Definition setBookingStatus (s : BookingStatus) (b : Booking) : Booking :=
  mkBooking (bookingUserId b) (bookingCelebrityId b) (bookingPriceUsd b) s (eventDetails b).

(** The status is bound to the enum column as it comes; every label is
    accepted whatever the stored status is. *)
Definition updateBookingStatus (id : nat) (status : string) : St DB (option Booking) :=
  match booking_status_of_string status with
  | None => throw (Error "invalid input value for enum booking_status")
  | Some s =>
      modify_state (set_bookings (alter (setBookingStatus s) id));;
      d ← get_state; mret (bookings d !! id)
  end.

Definition getCampaign (id : nat) : St DB (option Campaign) :=
  d ← get_state; mret (campaigns d !! id).

(** [Partial<Campaign>], as it comes in a request body: the three columns of
    the model, the status as the text that is bound to the enum column, and
    whether the body names one of the columns that the model leaves out
    ([campaign_type], [description], [custom_price_usd]), with a value that
    is taken to be accepted. *)
Record PartialCampaign := mkPartialCampaign {
  dataCampaignUserId : option string;
  dataCampaignCelebrityId : option nat;
  dataCampaignStatus : option string;
  dataCampaignOther : bool;
}.

Definition namesCampaignColumn (data : PartialCampaign) : bool :=
  bool_decide (is_Some (dataCampaignUserId data))
  || bool_decide (is_Some (dataCampaignCelebrityId data))
  || bool_decide (is_Some (dataCampaignStatus data)) || dataCampaignOther data.

Definition applyPartialCampaign (data : PartialCampaign) (s : option CampaignStatus)
    (c : Campaign) : Campaign :=
  mkCampaign (default (campaignUserId c) (dataCampaignUserId data))
             (default (campaignCelebrityId c) (dataCampaignCelebrityId data))
             (default (campaignStatus c) s).

(** The update of the row [id], once its values are bound: a new owner and
    a new celebrity must exist when a row is rewritten. *)
Definition writeCampaign (id : nat) (data : PartialCampaign) (s : option CampaignStatus)
  : St DB (option Campaign) :=
  d ← get_state;
  match campaigns d !! id with
  | None => mret None
  | Some _ =>
      if from_option (fun u => bool_decide (is_Some (users d !! u))) true
           (dataCampaignUserId data)
         && from_option (fun c => bool_decide (is_Some (celebrities d !! c))) true
              (dataCampaignCelebrityId data) then
        modify_state (set_campaigns (alter (applyPartialCampaign data s) id));;
        d ← get_state; mret (campaigns d !! id)
      else throw foreignKeyViolation
  end.

(** [updateCampaign(id, data)]: the body of the request is written as it is.
    A status that is no label of the enum is refused when it is bound. *)
Definition updateCampaign (id : nat) (data : PartialCampaign) : St DB (option Campaign) :=
  if negb (namesCampaignColumn data) then throw noValuesToSet
  else
    match dataCampaignStatus data with
    | Some label =>
        match campaign_status_of_string label with
        | None => throw (Error "invalid input value for enum campaign_status")
        | Some s => writeCampaign id data (Some s)
        end
    | None => writeCampaign id data None
    end.

Definition getDeposit (id : nat) : St DB (option Deposit) :=
  d ← get_state; mret (deposits d !! id).

(** The [InsertCampaign] record handed to the insert: the row, and the value
    for the column [campaign_type], which is not null and [varchar(100)], and
    which the rows of the model leave out. *)
Record InsertCampaign := mkInsertCampaign {
  campaignRow : Campaign;
  campaignType : option string;
}.

(** [user_id] and [celebrity_id] of a campaign are foreign keys. *)
Definition createCampaign (data : InsertCampaign) : St DB Campaign :=
  match campaignType data with
  | None => throw notNullViolation
  | Some type =>
      if negb (fitsWidth 100 type) then throw valueTooLong
      else
        d ← get_state;
        match users d !! campaignUserId (campaignRow data),
              celebrities d !! campaignCelebrityId (campaignRow data) with
        | Some _, Some _ =>
            modify_state (set_campaigns (fun cs => cs ++ [campaignRow data]));;
            mret (campaignRow data)
        | _, _ => throw foreignKeyViolation
        end
  end.

(** [coin] is bound to the enum [crypto_coin]. *)
Definition crypto_coin_label (s : string) : bool :=
  bool_decide (s = "BTC") || bool_decide (s = "ETH") || bool_decide (s = "USDT").

(** [amount_usd] is [decimal(12,2)] and [user_id] a foreign key. *)
Definition createDeposit (data : Deposit) : St DB Deposit :=
  if crypto_coin_label (coin data) then
    if negb (fitsColumn (amountUsd data)) then throw numericOverflow
    else
      d ← get_state;
      match users d !! depositUserId data with
      | None => throw foreignKeyViolation
      | Some _ =>
          modify_state (set_deposits (fun ds => ds ++ [data]));;
          mret data
      end
  else throw (Error "invalid input value for enum crypto_coin").

(** JavaScript truthiness of an optional string: [undefined] and the empty
    string are falsy. *)
Definition truthy (s : option string) : bool :=
  match s with
  | Some s => bool_decide (s ≠ "")
  | None => false
  end.

(** [tx_hash] is [varchar(500)]: a longer value is refused by the database.
    The handler only passes a hash on when it is truthy. *)
Definition txHashMaxLength : nat := 500.

Definition txHashTooLong (h : option string) : bool :=
  truthy h && bool_decide (txHashMaxLength < String.length (default "" h))%nat.

Definition setDepositStatus (s : DepositStatus) (h : option string) (dep : Deposit) : Deposit :=
  mkDeposit (depositUserId dep) (amountUsd dep) (coin dep)
            (if truthy h then h else txHash dep) s.

Definition updateDepositStatus (id : nat) (status : string) (hash : option string)
  : St DB (option Deposit) :=
  match deposit_status_of_string status with
  | None => throw (Error "invalid input value for enum deposit_status")
  | Some s =>
      if txHashTooLong hash then
        throw (Error "value too long for type character varying(500)")
      else
        modify_state (set_deposits (alter (setDepositStatus s hash) id));;
        d ← get_state; mret (deposits d !! id)
  end.

Definition createNotification (data : Notification) : St DB Notification :=
  d ← get_state;
  match users d !! notifUserId data with
  | None => throw foreignKeyViolation
  | Some _ =>
      modify_state (set_notifications (fun ns => ns ++ [data]));;
      mret data
  end.

Definition setRead (n : Notification) : Notification :=
  mkNotification (notifUserId n) (title n) (notifType n) true.

Definition markNotificationRead (id : nat) : St DB unit :=
  modify_state (set_notifications (alter setRead id)).

Definition markAllNotificationsRead (user : string) : St DB unit :=
  modify_state (set_notifications
    (fmap (fun n => if decide (notifUserId n = user) then setRead n else n))).

Definition createAdminLog (data : AdminLog) : St DB AdminLog :=
  d ← get_state;
  match users d !! adminId data with
  | None => throw foreignKeyViolation
  | Some _ =>
      modify_state (set_adminLogs (fun ls => ls ++ [data]));;
      mret data
  end.

(** [thread_id] is [varchar(100)], [thread_type] an enum column and
    [sender_user_id] a foreign key. *)
Definition createMessage (thread type : string) (reference : nat) (from : Sender)
    (fromUser body : string) : St DB Message :=
  match thread_type_of_string type with
  | None => throw (Error "invalid input value for enum message_type")
  | Some ty =>
      if negb (fitsWidth 100 thread) then throw valueTooLong
      else
        d ← get_state;
        match users d !! fromUser with
        | None => throw foreignKeyViolation
        | Some _ =>
            let data := mkMessage thread ty reference from fromUser body in
            modify_state (set_messages (fun ms => ms ++ [data]));;
            mret data
        end
  end.

(** ** The external price lookup ([getCryptoPrice]) *)

(** [COINGECKO_IDS] is an object literal, so a lookup also finds what every
    object inherits from [Object.prototype]: its methods and, under
    [__proto__], the prototype itself.  These values are truthy; where the
    function goes on to use one as a coin id it is turned into text. *)
Definition inheritedMethods : list string :=
  ["hasOwnProperty"; "isPrototypeOf"; "propertyIsEnumerable"; "toLocaleString"; "toString";
   "valueOf"; "__defineGetter__"; "__defineSetter__"; "__lookupGetter__"; "__lookupSetter__"].

Definition inherited (key : string) : option string :=
  if decide (key = "__proto__") then Some "[object Object]"
  else if decide (key = "constructor") then Some "function Object() { [native code] }"
  else if decide (key ∈ inheritedMethods) then Some ("function " +:+ key +:+ "() { [native code] }")
  else None.

Definition COINGECKO_IDS (coin : string) : option string :=
  if decide (coin = "BTC") then Some "bitcoin"
  else if decide (coin = "ETH") then Some "ethereum"
  else if decide (coin = "USDT") then Some "tether"
  else inherited coin.

(** The body of the price endpoint, parsed by [response.json()], as far as
    the function looks into it: [null], or an object whose entry for a coin
    id is absent, or present with or without a number under [usd].  Bodies
    in which [usd] is something other than a number are left out. *)
Inductive PriceData :=
| DataNull
| DataObject (entries : gmap string (option Q)).

(** What [await fetch(...)] followed by [await response.json()] does: it
    rejects (no network, a body that is not JSON) or yields the parsed body. *)
Inductive FetchOutcome :=
| FetchRejects
| FetchJson (data : PriceData).

Definition typeError : exn := Error "Cannot read properties of null".
Definition fetchFailed : exn := Error "fetch failed".

(** [data[coinId]?.usd]: [None] stands for [undefined]. *)
Definition usdOf (data : PriceData) (coinId : string) : result (option Q) :=
  match data with
  | DataNull => Throw typeError
  | DataObject entries => Ok (mjoin (entries !! coinId))
  end.

(** [x || 1] on a number or [undefined]: [0] and [undefined] are falsy. *)
Definition orOne (x : option Q) : Q :=
  match x with
  | Some q => if (Qnum q =? 0)%Z then 1%Q else q
  | None => 1%Q
  end.

Definition getCryptoPrice (coin : string) (live : FetchOutcome) : Q :=
  let attempt : result Q :=
    match COINGECKO_IDS coin with
    | None => Ok 1%Q
    | Some coinId =>
        match live with
        | FetchRejects => Throw fetchFailed
        | FetchJson data =>
            match usdOf data coinId with
            | Ok usd => Ok (orOne usd)
            | Throw e => Throw e
            end
        end
    end in
  match attempt with
  | Ok price => price
  | Throw _ =>
      if decide (coin = "USDT") then 1%Q
      else if decide (coin = "BTC") then 97000%Q
      else if decide (coin = "ETH") then 3400%Q
      else 1%Q
  end.

(** ** The WebSocket notifier (in [registerRoutes]) *)

Inductive ReadyState := CONNECTING | OPEN | CLOSING | CLOSED.

#[global] Instance ReadyState_eq_dec : EqDecision ReadyState.
Proof. solve_decision. Defined.

(** The frames the server writes to a socket, by their [type] field. *)
Inductive Frame :=
| auth_success
| auth_error (msg : string)
| notification (msg : string)
| booking_update (bookingId : nat) (status : string)
| deposit_update (depositId : nat) (status : string)
| campaign_update (campaignId : nat)
| new_message (thread : string) (m : Message) (isFromUser : bool).

(** A socket accepted by the server: its ready state, the variable
    [let userId] captured by its two listeners, and the frames written to it
    so far. *)
Record Connection := mkConnection {
  readyState : ReadyState;
  userId : option string;
  received : list Frame;
}.

Record TokenData := mkTokenData {
  tokenUserId : string;
  expires : Z;
}.

(** The server: the database, the two module-level maps, and every socket the
    server has accepted, a socket being named by its position.  The sockets of
    [wss.clients] are those that are not [CLOSED]. *)
Record World := mkWorld {
  db : DB;
  wsClients : gmap string nat;
  wsAuthTokens : gmap string TokenData;
  connections : list Connection;
}.

Definition set_db (f : DB -> DB) (w : World) : World :=
  mkWorld (f (db w)) (wsClients w) (wsAuthTokens w) (connections w).
Definition set_wsClients (f : gmap string nat -> gmap string nat) (w : World) : World :=
  mkWorld (db w) (f (wsClients w)) (wsAuthTokens w) (connections w).
Definition set_wsAuthTokens (f : gmap string TokenData -> gmap string TokenData) (w : World) : World :=
  mkWorld (db w) (wsClients w) (f (wsAuthTokens w)) (connections w).
Definition set_connections (f : list Connection -> list Connection) (w : World) : World :=
  mkWorld (db w) (wsClients w) (wsAuthTokens w) (f (connections w)).

(** A storage call made by a handler. *)
Definition liftDb {A} (m : St DB A) : St World A :=
  fun w => let '(r, d) := m (db w) in (r, set_db (fun _ => d) w).

Definition deliver (data : Frame) (c : Connection) : Connection :=
  mkConnection (readyState c) (userId c) (received c ++ [data]).

(** [ws.send(JSON.stringify(data))] *)
Definition send (ws : nat) (data : Frame) (w : World) : World :=
  set_connections (alter (deliver data) ws) w.

Definition isOpen (w : World) (ws : nat) : bool :=
  match connections w !! ws with
  | Some c => bool_decide (readyState c = OPEN)
  | None => false
  end.

(** [wss.on("connection", ...)]: a new socket, open, with [userId = null]. *)
Definition onConnection (w : World) : World :=
  set_connections (fun cs => cs ++ [mkConnection OPEN None []]) w.

(** What a client wrote: text that [JSON.parse] rejects, or an object with
    its [type] and [token] fields. *)
Inductive ClientData :=
| Unparsable
| Parsed (type : string) (token : option string).

Definition setUserId (u : string) (c : Connection) : Connection :=
  mkConnection (readyState c) (Some u) (received c).

(** [ws.on("message", ...)], with [now] the value of [Date.now()]. *)
Definition onMessage (ws : nat) (data : ClientData) (now : Z) (w : World) : World :=
  match data with
  | Unparsable => w
  | Parsed type token =>
      if bool_decide (type = "auth") && truthy token then
        let token := default "" token in
        match wsAuthTokens w !! token with
        | Some tokenData =>
            if decide (now < expires tokenData) then
              let w1 := set_connections (alter (setUserId (tokenUserId tokenData)) ws) w in
              let w2 := set_wsClients (insert (tokenUserId tokenData) ws) w1 in
              let w3 := set_wsAuthTokens (delete token) w2 in
              send ws auth_success w3
            else send ws (auth_error "Invalid or expired token") w
        | None => send ws (auth_error "Invalid or expired token") w
        end
      else w
  end.

Definition setReadyState (r : ReadyState) (c : Connection) : Connection :=
  mkConnection r (userId c) (received c).

(** The socket is closed and its [ws.on("close", ...)] listener runs;
    [if (userId)] holds for a string that is not empty. *)
Definition onClose (ws : nat) (w : World) : World :=
  let w1 := set_connections (alter (setReadyState CLOSED) ws) w in
  match connections w !! ws with
  | Some c =>
      if truthy (userId c) then set_wsClients (delete (default "" (userId c))) w1
      else w1
  | None => w1
  end.

Definition broadcastToUser (user : string) (data : Frame) : St World unit :=
  w ← get_state;
  match wsClients w !! user with
  | Some client =>
      if isOpen w client then modify_state (send client data) else mret tt
  | None => mret tt
  end.

(** [wss.clients.forEach(client => { if (client.readyState === OPEN) client.send(data) })] *)
Definition broadcastToAll (data : Frame) : St World unit :=
  modify_state (set_connections (fmap (fun c =>
    if decide (readyState c = OPEN) then deliver data c else c))).

(** [generateWsToken], with [rnd] the string drawn from [Math.random] and the
    clock, and [now] the value of [Date.now()]. *)
Definition generateWsToken (user : string) (rnd : string) (now : Z) : St World string :=
  modify_state (set_wsAuthTokens (insert rnd (mkTokenData user (now + 60000))));;
  mret rnd.

(** ** The route handlers ([registerRoutes], [server/auth.ts]) *)

Inductive Body :=
| BodyMessage (m : string)
| BodyBooking (b : option Booking)
| BodyDeposit (dep : option Deposit)
| BodyUser (u : option User)
| BodyCelebrity (c : option Celebrity)
| BodyCampaign (c : option Campaign)
| BodySuccess
| BodyChat (m : Message)
| BodyToken (token : string).

(** [res.status(code).json(body)] *)
Inductive Response := Json (code : nat) (body : Body).

(** [error.message || fallback] *)
Definition orDefault (m fallback : string) : string :=
  if decide (m = "") then fallback else m.

(** [caller] is [req.user.claims.sub] of an authenticated session, and [None]
    when the request carries none. *)
Definition isAuthenticated (caller : option string) (next : string -> St World Response)
  : St World Response :=
  match caller with
  | None => mret (Json 401 (BodyMessage "Unauthorized"))
  | Some sub => next sub
  end.

(** [isAdmin]: [!user?.claims?.sub] holds for the empty string.  The
    middleware answers by itself, or calls [next()]; what it catches is what
    its own statements throw, the handler behind [next()] being [async]. *)
Definition isAdmin (sub : string) (next : St World Response) : St World Response :=
  answer ← try_catch (
      if decide (sub = "") then mret (Some (Json 401 (BodyMessage "Unauthorized")))
      else
        dbUser ← liftDb (getUser sub);
        match dbUser with
        | Some u =>
            if decide (role u = RoleAdmin) then mret None
            else mret (Some (Json 403 (BodyMessage "Forbidden - Admin access required")))
        | None => mret (Some (Json 403 (BodyMessage "Forbidden - Admin access required")))
        end)
    (fun error => mret (Some (Json 401 (BodyMessage "Unauthorized"))));
  match answer with
  | Some response => mret response
  | None => next
  end.

(** [GET /api/auth/ws-token] *)
Definition getWsToken (caller : option string) (rnd : string) (now : Z) : St World Response :=
  isAuthenticated caller (fun sub =>
    token ← generateWsToken sub rnd now;
    mret (Json 200 (BodyToken token))).

(** [POST /api/celebrities], for a body that [insertCelebritySchema] accepts;
    a body without a [status] gets the default of the column. *)
Definition postCelebrities (caller : option string) (name : string) (price : Z)
    (status : option string) : St World Response :=
  isAuthenticated caller (fun sub => isAdmin sub (
    try_catch (
      celebrity ← liftDb (createCelebrity (mkCelebrity name price (default "active" status)));
      liftDb (createAdminLog (mkAdminLog sub "Created celebrity"));;
      mret (Json 201 (BodyCelebrity (Some celebrity))))
    (fun error =>
      mret (Json 400 (BodyMessage (orDefault (message error) "Failed to create celebrity")))))).

(** [PATCH /api/celebrities/:id] *)
Definition patchCelebrities (caller : option string) (id : nat) (body : PartialCelebrity)
  : St World Response :=
  isAuthenticated caller (fun sub => isAdmin sub (
    try_catch (
      celebrity ← liftDb (updateCelebrity id body);
      liftDb (createAdminLog (mkAdminLog sub "Updated celebrity"));;
      mret (Json 200 (BodyCelebrity celebrity)))
    (fun error =>
      mret (Json 400 (BodyMessage (orDefault (message error) "Failed to update celebrity")))))).

(** [DELETE /api/celebrities/:id] *)
Definition deleteCelebrities (caller : option string) (id : nat) : St World Response :=
  isAuthenticated caller (fun sub => isAdmin sub (
    try_catch (
      liftDb (deleteCelebrity id);;
      liftDb (createAdminLog (mkAdminLog sub "Deleted celebrity"));;
      mret (Json 200 BodySuccess))
    (fun error =>
      mret (Json 400 (BodyMessage (orDefault (message error) "Failed to delete celebrity")))))).

(** [POST /api/bookings], with [eventDate] the value of
    [req.body.eventDate ? new Date(req.body.eventDate) : null]. *)
Definition postBookings (caller : option string) (celebrityId : nat) (eventDate : EventDate)
    (details : string) : St World Response :=
  isAuthenticated caller (fun sub =>
    try_catch (
      celebrity ← liftDb (getCelebrity celebrityId);
      match celebrity with
      | None => mret (Json 404 (BodyMessage "Celebrity not found"))
      | Some celebrity =>
          created ← liftDb (createBookingWithBalanceDeduction sub
                      (mkInsertBooking
                         (mkBooking sub celebrityId (celebPriceUsd celebrity) BookingPending
                            details)
                         eventDate));
          liftDb (createNotification (mkNotification sub "Booking Submitted" "booking" false));;
          broadcastToUser sub (notification "New booking created");;
          mret (Json 201 (BodyBooking (Some created.1)))
      end)
    (fun error =>
      if decide (message error = "Insufficient wallet balance") then
        mret (Json 400 (BodyMessage (message error)))
      else if decide (message error = "User not found") then
        mret (Json 404 (BodyMessage (message error)))
      else mret (Json 400 (BodyMessage (orDefault (message error) "Failed to create booking"))))).

(** [PATCH /api/bookings/:id/status] *)
Definition patchBookingStatus (caller : option string) (id : nat) (status : string)
  : St World Response :=
  isAuthenticated caller (fun sub => isAdmin sub (
    try_catch (
      booking ← liftDb (getBooking id);
      match booking with
      | None => mret (Json 404 (BodyMessage "Booking not found"))
      | Some booking =>
          updatedBooking ← liftDb (updateBookingStatus id status);
          (if decide (status = "cancelled" ∧ bookingStatus booking = BookingPending) then
             liftDb (updateUserBalance (bookingUserId booking) (bookingPriceUsd booking));; mret tt
           else mret tt);;
          liftDb (createNotification
                    (mkNotification (bookingUserId booking) "Booking Update" "booking" false));;
          liftDb (createAdminLog (mkAdminLog sub ("Updated booking status to " +:+ status)));;
          broadcastToUser (bookingUserId booking) (booking_update id status);;
          mret (Json 200 (BodyBooking updatedBooking))
      end)
    (fun error =>
      mret (Json 400 (BodyMessage (orDefault (message error) "Failed to update booking")))))).

(** [POST /api/campaigns], with [type] the field [req.body.campaignType]. *)
Definition postCampaigns (caller : option string) (celebrityId : nat) (type : option string)
  : St World Response :=
  isAuthenticated caller (fun sub =>
    try_catch (
      campaign ← liftDb (createCampaign
                           (mkInsertCampaign (mkCampaign sub celebrityId CampaignPending) type));
      liftDb (getCelebrity celebrityId);;
      liftDb (createNotification
                (mkNotification sub "Campaign Request Submitted" "campaign" false));;
      mret (Json 201 (BodyCampaign (Some campaign))))
    (fun error =>
      mret (Json 400 (BodyMessage (orDefault (message error) "Failed to create campaign"))))).

(** [PATCH /api/campaigns/:id]: [req.body] goes to [updateCampaign] as it
    is. *)
Definition patchCampaigns (caller : option string) (id : nat) (body : PartialCampaign)
  : St World Response :=
  isAuthenticated caller (fun sub => isAdmin sub (
    try_catch (
      campaign ← liftDb (getCampaign id);
      match campaign with
      | None => mret (Json 404 (BodyMessage "Campaign not found"))
      | Some campaign =>
          updatedCampaign ← liftDb (updateCampaign id body);
          (if truthy (dataCampaignStatus body) then
             liftDb (createNotification
                       (mkNotification (campaignUserId campaign) "Campaign Update"
                          "campaign" false));;
             broadcastToUser (campaignUserId campaign) (campaign_update id)
           else mret tt);;
          liftDb (createAdminLog (mkAdminLog sub "Updated campaign"));;
          mret (Json 200 (BodyCampaign updatedCampaign))
      end)
    (fun error =>
      mret (Json 400 (BodyMessage (orDefault (message error) "Failed to update campaign")))))).

(** [POST /api/deposits], with [amount] the value of [amountUsd] in the
    request.  The price lookup and the wallet setting only feed the two
    columns that are left out, and the values they give are taken to be
    accepted by the database. *)
Definition postDeposits (caller : option string) (amount : Z) (asset : string)
  : St World Response :=
  isAuthenticated caller (fun sub =>
    try_catch (
      deposit ← liftDb (createDeposit (mkDeposit sub amount asset None DepositPending));
      liftDb (createNotification (mkNotification sub "Deposit Initiated" "deposit" false));;
      mret (Json 201 (BodyDeposit (Some deposit))))
    (fun error =>
      mret (Json 400 (BodyMessage (orDefault (message error) "Failed to create deposit"))))).

(** [PATCH /api/deposits/:id/status] *)
Definition patchDepositStatus (caller : option string) (id : nat) (status : string)
    (hash : option string) : St World Response :=
  isAuthenticated caller (fun sub => isAdmin sub (
    try_catch (
      deposit ← liftDb (getDeposit id);
      match deposit with
      | None => mret (Json 404 (BodyMessage "Deposit not found"))
      | Some deposit =>
          (if decide (status = "approved" ∧ depositStatus deposit = DepositPending) then
             liftDb (updateUserBalance (depositUserId deposit) (amountUsd deposit));; mret tt
           else mret tt);;
          updatedDeposit ← liftDb (updateDepositStatus id status hash);
          liftDb (createNotification
                    (mkNotification (depositUserId deposit) "Deposit Update" "deposit" false));;
          liftDb (createAdminLog (mkAdminLog sub ("Updated deposit status to " +:+ status)));;
          broadcastToUser (depositUserId deposit) (deposit_update id status);;
          mret (Json 200 (BodyDeposit updatedDeposit))
      end)
    (fun error =>
      mret (Json 400 (BodyMessage (orDefault (message error) "Failed to update deposit")))))).

(** [x?.userId || null]: an absent row and an empty id give [null]. *)
Definition ownerOrNull (owner : option string) : option string :=
  match owner with
  | Some u => if decide (u = "") then None else Some u
  | None => None
  end.

Definition isAdminUser (u : option User) : bool :=
  match u with
  | Some u => bool_decide (role u = RoleAdmin)
  | None => false
  end.

Definition accessDenied : Response :=
  Json 403 (BodyMessage "Access denied to this conversation").

(** [POST /api/messages] *)
Definition postMessages (caller : option string) (thread type : string) (reference : nat)
    (body : string) : St World Response :=
  isAuthenticated caller (fun sub =>
    try_catch (
      user ← liftDb (getUser sub);
      denied ← (if isAdminUser user then mret false
                else if decide (type = "booking") then
                  booking ← liftDb (getBooking reference);
                  mret (bool_decide (bookingUserId <$> booking ≠ Some sub))
                else if decide (type = "campaign") then
                  campaign ← liftDb (getCampaign reference);
                  mret (bool_decide (campaignUserId <$> campaign ≠ Some sub))
                else mret false);
      if (denied : bool) then mret accessDenied
      else
        msg ← liftDb (createMessage thread type reference
                        (if isAdminUser user then SenderAdmin else SenderUser) sub body);
        (if isAdminUser user then
           targetUserId ← (if decide (type = "booking") then
                             booking ← liftDb (getBooking reference);
                             mret (ownerOrNull (bookingUserId <$> booking))
                           else if decide (type = "campaign") then
                             campaign ← liftDb (getCampaign reference);
                             mret (ownerOrNull (campaignUserId <$> campaign))
                           else mret None);
           match targetUserId with
           | Some target => broadcastToUser target (new_message thread msg false)
           | None => mret tt
           end
         else broadcastToAll (new_message thread msg true));;
        mret (Json 201 (BodyChat msg)))
    (fun error =>
      mret (Json 400 (BodyMessage (orDefault (message error) "Failed to send message"))))).

(** [PATCH /api/notifications/:id/read] *)
Definition patchNotificationRead (caller : option string) (id : nat) : St World Response :=
  isAuthenticated caller (fun sub =>
    try_catch (
      liftDb (markNotificationRead id);;
      mret (Json 200 BodySuccess))
    (fun error => mret (Json 500 (BodyMessage "Failed to mark notification read")))).

(** [POST /api/notifications/read-all] *)
Definition postNotificationsReadAll (caller : option string) : St World Response :=
  isAuthenticated caller (fun sub =>
    try_catch (
      liftDb (markAllNotificationsRead sub);;
      mret (Json 200 BodySuccess))
    (fun error => mret (Json 500 (BodyMessage "Failed to mark notifications read")))).

(** [POST /api/admin/settings]; the settings table is left out, the entry in
    the administrators' log is written. *)
Definition postAdminSettings (caller : option string) : St World Response :=
  isAuthenticated caller (fun sub => isAdmin sub (
    try_catch (
      liftDb (createAdminLog (mkAdminLog sub "Updated setting"));;
      mret (Json 200 BodySuccess))
    (fun error =>
      mret (Json 400 (BodyMessage (orDefault (message error) "Failed to update setting")))))).

(** [PATCH /api/admin/users/:id]: [req.body] goes to [updateUser] as it is. *)
Definition patchAdminUser (caller : option string) (id : string) (body : PartialUser)
  : St World Response :=
  isAuthenticated caller (fun sub => isAdmin sub (
    try_catch (
      user ← liftDb (updateUser id body);
      liftDb (createAdminLog (mkAdminLog sub "Updated user"));;
      mret (Json 200 (BodyUser user)))
    (fun error =>
      mret (Json 400 (BodyMessage (orDefault (message error) "Failed to update user")))))).

(** [PATCH /api/admin/users/:id/balance] *)
Definition patchAdminUserBalance (caller : option string) (id : string) (amount : Z)
  : St World Response :=
  isAuthenticated caller (fun sub => isAdmin sub (
    try_catch (
      user ← liftDb (updateUserBalance id amount);
      liftDb (createAdminLog (mkAdminLog sub "Adjusted user balance"));;
      liftDb (createNotification (mkNotification id "Balance Adjustment" "wallet" false));;
      mret (Json 200 (BodyUser user)))
    (fun error =>
      mret (Json 400 (BodyMessage (orDefault (message error) "Failed to adjust balance")))))).

(** [PATCH /api/profile]: only [phone] and [country] reach [updateUser], and
    the model of a user row carries neither. *)
Definition patchProfile (caller : option string) : St World Response :=
  isAuthenticated caller (fun sub =>
    try_catch (
      user ← liftDb (updateUser sub (mkPartialUser None None None None));
      mret (Json 200 (BodyUser user)))
    (fun error =>
      mret (Json 400 (BodyMessage (orDefault (message error) "Failed to update profile"))))).

(** ** The server as a transition system *)

(** What can happen to the server: a socket event, or a request to one of
    the routes that write. *)
Inductive Event :=
| WsConnection
| WsMessage (ws : nat) (data : ClientData) (now : Z)
| WsClose (ws : nat)
| GetWsToken (caller : option string) (rnd : string) (now : Z)
| PostCelebrities (caller : option string) (name : string) (price : Z) (status : option string)
| PatchCelebrities (caller : option string) (id : nat) (body : PartialCelebrity)
| DeleteCelebrities (caller : option string) (id : nat)
| PostBookings (caller : option string) (celebrityId : nat) (eventDate : EventDate)
    (details : string)
| PatchBookingStatus (caller : option string) (id : nat) (status : string)
| PostCampaigns (caller : option string) (celebrityId : nat) (type : option string)
| PatchCampaigns (caller : option string) (id : nat) (body : PartialCampaign)
| PostDeposits (caller : option string) (amount : Z) (asset : string)
| PatchDepositStatus (caller : option string) (id : nat) (status : string) (hash : option string)
| PostMessages (caller : option string) (thread type : string) (reference : nat) (body : string)
| PatchNotificationRead (caller : option string) (id : nat)
| PostNotificationsReadAll (caller : option string)
| PostAdminSettings (caller : option string)
| PatchAdminUser (caller : option string) (id : string) (body : PartialUser)
| PatchAdminUserBalance (caller : option string) (id : string) (amount : Z)
| PatchProfile (caller : option string).

Definition isClosed (w : World) (ws : nat) : bool :=
  match connections w !! ws with
  | Some c => bool_decide (readyState c = CLOSED)
  | None => true
  end.

(** A socket hears a message only while it is open, and closes once. *)
Definition step (e : Event) (w : World) : World :=
  match e with
  | WsConnection => onConnection w
  | WsMessage ws data now => if isOpen w ws then onMessage ws data now w else w
  | WsClose ws => if isClosed w ws then w else onClose ws w
  | GetWsToken caller rnd now => (getWsToken caller rnd now w).2
  | PostCelebrities caller name price status => (postCelebrities caller name price status w).2
  | PatchCelebrities caller id body => (patchCelebrities caller id body w).2
  | DeleteCelebrities caller id => (deleteCelebrities caller id w).2
  | PostBookings caller celebrityId eventDate details =>
      (postBookings caller celebrityId eventDate details w).2
  | PatchBookingStatus caller id status => (patchBookingStatus caller id status w).2
  | PostCampaigns caller celebrityId type => (postCampaigns caller celebrityId type w).2
  | PatchCampaigns caller id body => (patchCampaigns caller id body w).2
  | PostDeposits caller amount asset => (postDeposits caller amount asset w).2
  | PatchDepositStatus caller id status hash => (patchDepositStatus caller id status hash w).2
  | PostMessages caller thread type reference body =>
      (postMessages caller thread type reference body w).2
  | PatchNotificationRead caller id => (patchNotificationRead caller id w).2
  | PostNotificationsReadAll caller => (postNotificationsReadAll caller w).2
  | PostAdminSettings caller => (postAdminSettings caller w).2
  | PatchAdminUser caller id body => (patchAdminUser caller id body w).2
  | PatchAdminUserBalance caller id amount => (patchAdminUserBalance caller id amount w).2
  | PatchProfile caller => (patchProfile caller w).2
  end.

Definition run (es : list Event) (w : World) : World :=
  foldl (fun w e => step e w) w es.

(** The server after start-up: the stored tables, no socket, empty maps. *)
Definition boot (d : DB) : World := mkWorld d ∅ ∅ [].

Definition balanceOf (w : World) (u : string) : option Z :=
  balanceUsd <$> users (db w) !! u.

(** ** Non-negative money *)

Definition nonnegBalances (us : gmap string User) : Prop :=
  ∀ u row, us !! u = Some row → 0 ≤ balanceUsd row.

(** No balance, price or amount stored in the database is below zero. *)
Definition nonnegDB (d : DB) : Prop :=
  nonnegBalances (users d)
  ∧ Forall (fun c => 0 ≤ celebPriceUsd c) (celebrities d)
  ∧ Forall (fun b => 0 ≤ bookingPriceUsd b) (bookings d)
  ∧ Forall (fun dep => 0 ≤ amountUsd dep) (deposits d).

(** The requests that carry no amount below zero: an administrator's balance
    adjustment by a non-negative amount, a user update that writes no negative
    balance, the creation of a deposit of a non-negative amount, the creation
    or update of an offering with a non-negative price, and every request and
    socket event that carries no amount at all. *)
Definition carriesNoNegativeAmount (e : Event) : Prop :=
  match e with
  | PatchAdminUserBalance _ _ amount => 0 ≤ amount
  | PatchAdminUser _ _ body => ∀ v, dataBalanceUsd body = Some v → 0 ≤ v
  | PostDeposits _ amount _ => 0 ≤ amount
  | PostCelebrities _ _ price _ => 0 ≤ price
  | PatchCelebrities _ _ body => ∀ v, dataPriceUsd body = Some v → 0 ≤ v
  | _ => True
  end.

(** ** Channels and what sockets are sent *)

(** The frames that are pushes, as opposed to the two replies to [auth]. *)
Definition isPush (f : Frame) : bool :=
  match f with
  | auth_success | auth_error _ => false
  | _ => true
  end.

(** The frames written without looking at the channel map: the refusal of an
    [auth] message, and the [new_message] that the message route sends to
    every open socket when the sender is no administrator. *)
Definition untargeted (f : Frame) : Prop :=
  match f with
  | auth_error _ => True
  | new_message _ _ true => True
  | _ => False
  end.

(** Every socket in the channel map has set its [userId], and a socket that
    has not has only been sent untargeted frames. *)
Definition channelsOk (clients : gmap string nat) (sockets : list Connection) : Prop :=
  (∀ u ws, clients !! u = Some ws → ∃ c, sockets !! ws = Some c ∧ userId c ≠ None)
  ∧ (∀ ws c, sockets !! ws = Some c → userId c = None → Forall untargeted (received c)).

Definition channelsOkIn (w : World) : Prop := channelsOk (wsClients w) (connections w).



(** ** A sample server

    An administrator, a customer with 100.00 in the wallet, one offering
    priced 80.00, one pending booking of it and one pending deposit of
    50.00. *)

Definition sampleDB : DB :=
  mkDB {[ "root" := mkUser 0 RoleAdmin "active";
          "alice" := mkUser 10000 RoleUser "active" ]}
       [mkCelebrity "Star" 8000 "active"]
       [mkBooking "alice" 0 8000 BookingPending "gala"]
       []
       [mkDeposit "alice" 5000 "BTC" None DepositPending]
       [] [] [].

Definition sample : World := boot sampleDB.

(** The sample server after the customer has opened a socket and
    authenticated it, and has then opened a second socket and fetched a second
    token, not yet presented. *)
Definition twoSockets : World :=
  run [WsConnection;
       GetWsToken (Some "alice") "t1" 0;
       WsMessage 0 (Parsed "auth" (Some "t1")) 10;
       WsConnection;
       GetWsToken (Some "alice") "t2" 20] sample.

(** A transaction hash of 501 characters. *)
Definition longHash : string := String.string_of_list_ascii (replicate 501 "a"%char).

(** ** Weakest preconditions *)

(** [wp m Q s]: run from [s], the computation [m] ends, with a value or an
    exception, in a state that together with that outcome satisfies [Q]. *)
Definition wp {S A} (m : St S A) (Q : result A -> S -> Prop) (s : S) : Prop :=
  Q (m s).1 (m s).2.

(** ** Requests, callers and the routes behind [isAdmin] *)

(** The handler of a request; a socket event has none. *)
Definition handlerOf (e : Event) : option (St World Response) :=
  match e with
  | WsConnection | WsMessage _ _ _ | WsClose _ => None
  | GetWsToken caller rnd now => Some (getWsToken caller rnd now)
  | PostCelebrities caller name price status => Some (postCelebrities caller name price status)
  | PatchCelebrities caller id body => Some (patchCelebrities caller id body)
  | DeleteCelebrities caller id => Some (deleteCelebrities caller id)
  | PostBookings caller celebrityId eventDate details =>
      Some (postBookings caller celebrityId eventDate details)
  | PatchBookingStatus caller id status => Some (patchBookingStatus caller id status)
  | PostCampaigns caller celebrityId type => Some (postCampaigns caller celebrityId type)
  | PatchCampaigns caller id body => Some (patchCampaigns caller id body)
  | PostDeposits caller amount asset => Some (postDeposits caller amount asset)
  | PatchDepositStatus caller id status hash => Some (patchDepositStatus caller id status hash)
  | PostMessages caller thread type reference body =>
      Some (postMessages caller thread type reference body)
  | PatchNotificationRead caller id => Some (patchNotificationRead caller id)
  | PostNotificationsReadAll caller => Some (postNotificationsReadAll caller)
  | PostAdminSettings caller => Some (postAdminSettings caller)
  | PatchAdminUser caller id body => Some (patchAdminUser caller id body)
  | PatchAdminUserBalance caller id amount => Some (patchAdminUserBalance caller id amount)
  | PatchProfile caller => Some (patchProfile caller)
  end.

(** [req.user.claims.sub] of a request, [None] for a request without a
    session. *)
Definition callerOf (e : Event) : option string :=
  match e with
  | WsConnection | WsMessage _ _ _ | WsClose _ => None
  | GetWsToken caller _ _ | PostCelebrities caller _ _ _ | PatchCelebrities caller _ _
  | DeleteCelebrities caller _ | PostBookings caller _ _ _ | PatchBookingStatus caller _ _
  | PostCampaigns caller _ _ | PatchCampaigns caller _ _ | PostDeposits caller _ _
  | PatchDepositStatus caller _ _ _ | PostMessages caller _ _ _ _
  | PatchNotificationRead caller _ | PostNotificationsReadAll caller
  | PostAdminSettings caller | PatchAdminUser caller _ _
  | PatchAdminUserBalance caller _ _ | PatchProfile caller => caller
  end.

(** The routes registered with [isAuthenticated, isAdmin]. *)
Definition adminRoute (e : Event) : bool :=
  match e with
  | PostCelebrities _ _ _ _ | PatchCelebrities _ _ _ | DeleteCelebrities _ _
  | PatchBookingStatus _ _ _ | PatchCampaigns _ _ _ | PatchDepositStatus _ _ _ _
  | PostAdminSettings _ | PatchAdminUser _ _ _ | PatchAdminUserBalance _ _ _ => true
  | _ => false
  end.

(** ** What may become of a socket *)

(** From [c] to [c']: the frames sent are kept and possibly followed by more,
    a [userId] that is set stays set, and a closed socket does not change. *)
Definition socketAdvances (c c' : Connection) : Prop :=
  received c `prefix_of` received c'
  ∧ (userId c ≠ None → userId c' ≠ None)
  ∧ (readyState c = CLOSED → c' = c).

Definition socketsAdvance (cs cs' : list Connection) : Prop :=
  ∀ ws c, cs !! ws = Some c → ∃ c', cs' !! ws = Some c' ∧ socketAdvances c c'.

(** ** What may become of a stored row *)

(** Every row of [l] is still at its place in [l'], changed at most within
    what [same] allows. *)
Definition rowsKept {A} (same : A → A → Prop) (l l' : list A) : Prop :=
  ∀ i x, l !! i = Some x → ∃ x', l' !! i = Some x' ∧ same x x'.

(** A booking but for its status. *)
Definition sameBooking (b b' : Booking) : Prop :=
  bookingUserId b' = bookingUserId b
  ∧ bookingCelebrityId b' = bookingCelebrityId b
  ∧ bookingPriceUsd b' = bookingPriceUsd b
  ∧ eventDetails b' = eventDetails b.

(** A deposit but for its status and its transaction hash. *)
Definition sameDeposit (dep dep' : Deposit) : Prop :=
  depositUserId dep' = depositUserId dep
  ∧ amountUsd dep' = amountUsd dep
  ∧ coin dep' = coin dep.

(** A notification, whose read flag may have been set. *)
Definition sameNotification (n n' : Notification) : Prop :=
  notifUserId n' = notifUserId n
  ∧ title n' = title n
  ∧ notifType n' = notifType n
  ∧ (isRead n = true → isRead n' = true).

(** ** What may become of the users table *)

Definition rolesKept (us us' : gmap string User) : Prop :=
  ∀ u, role <$> us' !! u = role <$> us !! u.

Definition balancesKept (us us' : gmap string User) : Prop :=
  ∀ u, balanceUsd <$> us' !! u = balanceUsd <$> us !! u.

Definition sameUsers (us us' : gmap string User) : Prop :=
  ∀ u, is_Some (us' !! u) ↔ is_Some (us !! u).

(** The request is an administrator's user update. *)
Definition isUserUpdate (e : Event) : bool :=
  match e with
  | PatchAdminUser _ _ _ => true
  | _ => false
  end.

(** The routes whose handlers write a balance. *)
Definition ledgerRoute (e : Event) : bool :=
  match e with
  | PostBookings _ _ _ _ | PatchBookingStatus _ _ _ | PatchDepositStatus _ _ _ _
  | PatchAdminUser _ _ _ | PatchAdminUserBalance _ _ _ => true
  | _ => false
  end.

(** ** Message threads ([getMessagesByThread], [getThreadsForUser]) *)

#[global] Instance Sender_eq_dec : EqDecision Sender.
Proof. solve_decision. Defined.


(** An entry of the list that [getThreadsForUser] returns. *)
Record Thread := mkThread {
  threadKey : string;
  threadKind : ThreadType;
  threadReference : nat;
  lastMessage : Message;
}.

(** [if (!threadMap.has(msg.threadId)) threadMap.set(msg.threadId, msg)]; a
    [Map] lists its entries in the order of their insertion. *)
Definition remember (threadMap : list (string * Message)) (msg : Message)
  : list (string * Message) :=
  if decide (threadId msg ∈ threadMap.*1) then threadMap
  else threadMap ++ [(threadId msg, msg)].

(** [msg.senderUserId === userId || msg.sender === "admin"] *)
Definition concerns (user : string) (msg : Message) : Prop :=
  senderUserId msg = user ∨ sender msg = SenderAdmin.

#[global] Instance concerns_dec user msg : Decision (concerns user msg).
Proof. unfold concerns. apply _. Defined.

Definition threadMapFor (user : string) (userMessages : list Message)
  : list (string * Message) :=
  foldl (λ threadMap msg, if decide (concerns user msg) then remember threadMap msg
                          else threadMap) [] userMessages.

(** The ids of the rows of a table that satisfy [P]. *)
Definition idsWhere {A} (P : A → Prop) `{∀ x, Decision (P x)} (rows : list A) : list nat :=
  (filter (λ r, P r.2) (imap pair rows)).*1.

(** [`booking-${b.id}`] and [`campaign-${c.id}`] of the user's rows *)
Definition bookingThreadIds (user : string) (d : DB) : list string :=
  (λ i : nat, "booking-" +:+ pretty i) <$> idsWhere (λ b, bookingUserId b = user) (bookings d).

Definition campaignThreadIds (user : string) (d : DB) : list string :=
  (λ i : nat, "campaign-" +:+ pretty i)
    <$> idsWhere (λ c, campaignUserId c = user) (campaigns d).

Definition getThreadsForUser (user : string) : St DB (list Thread) :=
  d ← get_state;
  let userMessages := reverse (messages d) in
  let threadMap := threadMapFor user userMessages in
  mret ((λ entry, mkThread entry.1 (threadType entry.2) (referenceId entry.2) entry.2)
          <$> filter (λ entry, entry.1 ∈ bookingThreadIds user d
                               ∨ entry.1 ∈ campaignThreadIds user d) threadMap).

(** An entry of the list that [getAllThreads] returns. *)
Record ThreadOfUser := mkThreadOfUser {
  thread : Thread;
  threadUser : User;
}.

(** The user a thread belongs to: the owner of the booking or campaign that
    its last message refers to, [null] when there is no such row. *)
Definition threadOwner (d : DB) (last : Message) : option string :=
  match threadType last with
  | ThreadBooking => ownerOrNull (bookingUserId <$> bookings d !! referenceId last)
  | ThreadCampaign => ownerOrNull (campaignUserId <$> campaigns d !! referenceId last)
  end.

Definition getAllThreads : St DB (list ThreadOfUser) :=
  d ← get_state;
  let allMessages := reverse (messages d) in
  let threadMap := foldl remember [] allMessages in
  mret (omap (λ entry,
                owner ← threadOwner d entry.2;
                user ← users d !! owner;
                Some (mkThreadOfUser
                        (mkThread entry.1 (threadType entry.2) (referenceId entry.2) entry.2)
                        user))
             threadMap).

(** ** The administrators' figures ([GET /api/admin/stats]) *)


#[global] Instance CampaignStatus_eq_dec : EqDecision CampaignStatus.
Proof. solve_decision. Defined.




(** * Properties *)

(** ** Reasoning about computations *)

Ltac st_simpl :=
  cbn [fst snd db wsClients wsAuthTokens connections set_db set_wsClients
       set_wsAuthTokens set_connections send users celebrities bookings campaigns deposits
       messages notifications adminLogs message
       set_users set_celebrities set_campaigns set_bookings set_deposits set_messages set_notifications set_adminLogs
       campaignUserId campaignCelebrityId celebPriceUsd
       bookingUserId bookingCelebrityId bookingPriceUsd bookingStatus
       depositUserId amountUsd depositStatus txHash notifUserId adminId senderUserId
       balanceUsd role setBalance bookingRow bookingEventDate campaignRow campaignType
       negb] in *.


Section wp_rules.
Context {S : Type}.

Lemma wp_ret {A} (a : A) (Q : result A → S → Prop) s :
  Q (Ok a) s → wp (mret a) Q s.
Proof. done. Qed.

Lemma wp_throw {A} e (Q : result A → S → Prop) s :
  Q (Throw e) s → wp (throw e) Q s.
Proof. done. Qed.

Lemma wp_get (Q : result S → S → Prop) s :
  Q (Ok s) s → wp get_state Q s.
Proof. done. Qed.

Lemma wp_modify (f : S → S) (Q : result unit → S → Prop) s :
  Q (Ok tt) (f s) → wp (modify_state f) Q s.
Proof. done. Qed.

Lemma wp_bind {A B} (m : St S A) (k : A → St S B) (Q : result B → S → Prop) s :
  wp m (λ r s', match r with
                | Ok a => wp (k a) Q s'
                | Throw e => Q (Throw e) s'
                end) s →
  wp (m ≫= k) Q s.
Proof.
  unfold wp, mbind, St_bind, st_bind. by destruct (m s) as [[a|e] s'].
Qed.

Lemma wp_try_catch {A} (m : St S A) (h : exn → St S A) (Q : result A → S → Prop) s :
  wp m (λ r s', match r with
                | Ok a => Q (Ok a) s'
                | Throw e => wp (h e) Q s'
                end) s →
  wp (try_catch m h) Q s.
Proof.
  unfold wp, try_catch. by destruct (m s) as [[a|e] s'].
Qed.
End wp_rules.

Lemma wp_liftDb {A} (m : St DB A) (Q : result A → World → Prop) w :
  wp m (λ r d, Q r (mkWorld d (wsClients w) (wsAuthTokens w) (connections w))) (db w) →
  wp (liftDb m) Q w.
Proof. unfold wp, liftDb. by destruct (m (db w)). Qed.

Lemma wp_pair {S A} (m : St S A) (r : result A) (s s' : S) :
  wp m (λ r0 s0, r0 = r ∧ s0 = s') s → m s = (r, s').
Proof. unfold wp. destruct (m s) as [r0 s0]. cbn. by intros [-> ->]. Qed.

Lemma wp_transaction {A} (body : St DB A) (Q : result A → DB → Prop) d :
  wp body (λ r d', match r with
                   | Ok a => Q (Ok a) d'
                   | Throw e => Q (Throw e) d
                   end) d →
  wp (transaction body) Q d.
Proof. unfold wp, transaction. by destruct (body d) as [[a|e] d']. Qed.

Ltac head_of t :=
  lazymatch t with
  | ?f _ => head_of f
  | _ => t
  end.

(** One step of symbolic execution of the program under [wp]. *)
Ltac wp_step :=
  lazymatch goal with
  | |- wp (mbind _ _) _ _ => apply wp_bind
  | |- wp (mret _) _ _ => apply wp_ret
  | |- wp (throw _) _ _ => apply wp_throw
  | |- wp get_state _ _ => apply wp_get
  | |- wp (modify_state _) _ _ => apply wp_modify
  | |- wp (try_catch _ _) _ _ => apply wp_try_catch
  | |- wp (liftDb _) _ _ => apply wp_liftDb
  | |- wp (transaction _) _ _ => apply wp_transaction
  | |- wp (if negb ?b then _ else _) _ _ =>
      first [ match goal with H : b = _ |- _ => rewrite H end
            | destruct b eqn:? ]
  | |- wp (match ?x with _ => _ end) _ _ =>
      first [ match goal with H : x = _ |- _ => rewrite H end
            | destruct x eqn:? ]
  | |- wp ?m _ _ => let h := head_of m in unfold h
  end; st_simpl.

Ltac wp_run := repeat wp_step.

(** Closes a branch in which a row known to be stored was not found after
    an in-place update of the table. *)
Ltac absent_row :=
  exfalso;
  match goal with
  | H : alter _ _ _ !! _ = None |- _ => apply lookup_alter_None in H; congruence
  end.

(** The row at position [i] after an update of that row. *)
Lemma row_after_update {A} (f : A → A) (l : list A) (i : nat) :
  alter f i l !! i = f <$> l !! i.
Proof. rewrite list_lookup_alter. by rewrite decide_True. Qed.


(** ** Booking creation *)

(** ** Booking creation *)


(** *** The two calls at once *)

Section race.
Variables (userId : string) (data : InsertBooking).

Let run := createBookingWithBalanceDeduction userId data.







End race.

Section serial.
Variables (userId : string) (d0 : DB).





End serial.


(** *** The request *)




Section booking_creation.
Variables (w : World) (sub : string) (celebrityId : nat) (eventDate : EventDate).
Variables (details : string) (user : User) (celebrity : Celebrity).
Hypothesis user_row : users (db w) !! sub = Some user.
Hypothesis celebrity_row : celebrities (db w) !! celebrityId = Some celebrity.

Let price := celebPriceUsd celebrity.
Let row := mkBooking sub celebrityId price BookingPending details.
Let data := mkInsertBooking row eventDate.




End booking_creation.


(** ** Deposit approval *)

(** Off the pending-to-approved edge no request touches the users table,
    whoever sends it and whether or not it succeeds. *)
Lemma patchDepositStatus_no_credit w caller id status hash :
  (∀ dep, deposits (db w) !! id = Some dep →
          ¬ (status = "approved" ∧ depositStatus dep = DepositPending)) →
  users (db (patchDepositStatus caller id status hash w).2) = users (db w).
Proof.
  intros Hedge.
  change (wp (patchDepositStatus caller id status hash)
            (λ _ w', users (db w') = users (db w)) w).
  wp_run; try done.
  all: by destruct (Hedge _ eq_refl).
Qed.

(** The approval of a pending deposit whose credit the balance column can
    hold.  The credit is written first.  With a transaction hash that the
    column accepts the status follows and the request is answered 200; with a
    hash that is too long the status update is refused, the request is
    answered 400, and the credit stays. *)
Lemma approval_writes w admin adminUser id hash deposit owner :
  admin ≠ "" →
  users (db w) !! admin = Some adminUser →
  role adminUser = RoleAdmin →
  deposits (db w) !! id = Some deposit →
  users (db w) !! depositUserId deposit = Some owner →
  depositStatus deposit = DepositPending →
  fitsColumn (balanceUsd owner + amountUsd deposit) = true →
  wp (patchDepositStatus (Some admin) id "approved" hash)
     (λ r w',
        users (db w')
        = <[depositUserId deposit
            := mkUser (balanceUsd owner + amountUsd deposit) (role owner) (userStatus owner)]>
            (users (db w))
        ∧ (txHashTooLong hash = false →
           r = Ok (Json 200 (BodyDeposit
                               (Some (setDepositStatus DepositApproved hash deposit))))
           ∧ deposits (db w')
             = alter (setDepositStatus DepositApproved hash) id (deposits (db w)))
        ∧ (txHashTooLong hash = true →
           r = Ok (Json 400 (BodyMessage "value too long for type character varying(500)"))
           ∧ deposits (db w') = deposits (db w)))
     w.
Proof.
  intros Hnamed Hadmin Hrole Hdeposit Howner Hpending Hfits.
  pose proof (eq_refl : deposit_status_of_string "approved" = Some DepositApproved) as Hlabel.
  wp_run; try done; try congruence; try absent_row.
  all: try by match goal with n : ¬ (_ ∧ _) |- _ => destruct n end.
  all: rewrite ?row_after_update, ?Hdeposit, (alter_alt_Some _ _ _ _ Howner).
  all: by repeat split.
Qed.


Section deposit_approval.
Variables (w : World) (admin : string) (id : nat) (hash1 hash2 : option string).
Variables (adminUser owner : User) (deposit : Deposit).
Hypothesis admin_named : admin ≠ "".
Hypothesis admin_row : users (db w) !! admin = Some adminUser.
Hypothesis admin_role : role adminUser = RoleAdmin.
Hypothesis deposit_row : deposits (db w) !! id = Some deposit.
Hypothesis owner_row : users (db w) !! depositUserId deposit = Some owner.
Hypothesis pending : depositStatus deposit = DepositPending.
Hypothesis credit_fits : fitsColumn (balanceUsd owner + amountUsd deposit) = true.

Let w1 := (patchDepositStatus (Some admin) id "approved" hash1 w).2.
Let w2 := (patchDepositStatus (Some admin) id "approved" hash2 w1).2.

(** C2, in general.  The first approval of a pending deposit adds the
    deposit's recorded amount to its owner's balance.  When its transaction
    hash is one the column accepts, the status approved is stored, and a
    second approval, whatever it carries, leaves the users table as the first
    one left it: the deposit is credited once.  When its transaction hash is
    too long, the request is answered 400 after the credit was written, the
    deposit is still pending, and a second approval, whatever it carries,
    credits the owner again: the balance is the old one plus twice the
    amount. *)
Theorem approval_retry_credits_again :
  balanceOf w1 (depositUserId deposit) = Some (balanceUsd owner + amountUsd deposit)
  ∧ (txHashTooLong hash1 = false →
     depositStatus <$> deposits (db w1) !! id = Some DepositApproved
     ∧ users (db w2) = users (db w1)
     ∧ balanceOf w2 (depositUserId deposit) = Some (balanceUsd owner + amountUsd deposit))
  ∧ (txHashTooLong hash1 = true →
     fitsColumn (balanceUsd owner + amountUsd deposit + amountUsd deposit) = true →
     (patchDepositStatus (Some admin) id "approved" hash1 w).1
     = Ok (Json 400 (BodyMessage "value too long for type character varying(500)"))
     ∧ depositStatus <$> deposits (db w1) !! id = Some DepositPending
     ∧ balanceOf w2 (depositUserId deposit)
       = Some (balanceUsd owner + amountUsd deposit + amountUsd deposit)).
Proof using All.
  destruct (approval_writes w admin adminUser id hash1 deposit owner
              admin_named admin_row admin_role deposit_row owner_row pending credit_fits)
    as (Husers & Hstored & Hrefused).
  fold w1 in Husers, Hstored, Hrefused.
  assert (balanceOf w1 (depositUserId deposit)
          = Some (balanceUsd owner + amountUsd deposit)) as Hbal.
  { unfold balanceOf. by rewrite Husers, lookup_insert_eq. }
  split; [done|]. split.
  - intros Hfits. destruct (Hstored Hfits) as [_ Hdeposits].
    assert (users (db w2) = users (db w1)) as Hsame.
    { apply patchDepositStatus_no_credit. intros dep Hdep [_ Hpending].
      rewrite Hdeposits, row_after_update, deposit_row in Hdep.
      injection Hdep as <-. discriminate Hpending. }
    split; [by rewrite Hdeposits, row_after_update, deposit_row|].
    split; [done|]. unfold balanceOf. by rewrite Hsame, Husers, lookup_insert_eq.
  - intros Hlong Htwice. destruct (Hrefused Hlong) as [Hanswer Hdeposits].
    split; [done|]. split; [by rewrite Hdeposits, deposit_row; cbn; rewrite pending|].
    assert (∃ adminUser', users (db w1) !! admin = Some adminUser'
                          ∧ role adminUser' = RoleAdmin) as (adminUser' & Hadmin' & Hrole').
    { rewrite Husers. destruct (decide (depositUserId deposit = admin)) as [<-|Hne].
      - rewrite lookup_insert_eq. eexists. split; [done|]. cbn. congruence.
      - rewrite lookup_insert_ne by done. eauto. }
    destruct (approval_writes w1 admin adminUser' id hash2 deposit
                (mkUser (balanceUsd owner + amountUsd deposit) (role owner) (userStatus owner))
                admin_named Hadmin' Hrole')
      as (Husers2 & _); [by rewrite Hdeposits|by rewrite Husers, lookup_insert_eq|done|done|].
    fold w2 in Husers2. unfold balanceOf. by rewrite Husers2, lookup_insert_eq.
Qed.
End deposit_approval.

Lemma approval_retry_credits_again_witness :
  users (db sample) !! "root" = Some (mkUser 0 RoleAdmin "active")
  ∧ deposits (db sample) !! 0%nat = Some (mkDeposit "alice" 5000 "BTC" None DepositPending)
  ∧ users (db sample) !! "alice" = Some (mkUser 10000 RoleUser "active")
  ∧ txHashTooLong (Some longHash) = true
  ∧ balanceOf
      (run [PatchDepositStatus (Some "root") 0 "approved" (Some longHash);
            PatchDepositStatus (Some "root") 0 "approved" (Some "0xabc")] sample)
      "alice" = Some 20000.
Proof.
  do 3 (split; [reflexivity|]). split; [vm_compute; reflexivity|].
  exact (proj2 (proj2 (proj2 (proj2
    (approval_retry_credits_again sample "root" 0%nat (Some longHash) (Some "0xabc")
       (mkUser 0 RoleAdmin "active") (mkUser 10000 RoleUser "active")
       (mkDeposit "alice" 5000 "BTC" None DepositPending)
       ltac:(discriminate) eq_refl eq_refl eq_refl eq_refl eq_refl eq_refl))
    ltac:(vm_compute; reflexivity) eq_refl))).
Defined.

(** ** The status of a deposit is overwritten by every accepted request *)


Section deposit_status.
Variables (w : World) (admin : string) (id : nat) (status : string) (hash : option string).
Variables (adminUser : User) (deposit : Deposit) (s : DepositStatus).
Hypothesis admin_named : admin ≠ "".
Hypothesis admin_row : users (db w) !! admin = Some adminUser.
Hypothesis admin_role : role adminUser = RoleAdmin.
Hypothesis deposit_row : deposits (db w) !! id = Some deposit.
Hypothesis label : deposit_status_of_string status = Some s.
Hypothesis hash_fits : txHashTooLong hash = false.

End deposit_status.


(** ** The credit and the status write are two separate statements *)

(** C5, at the failing request.  An approval of the pending sample deposit
    that carries a transaction hash of 501 characters is answered 400: the
    credit of 50.00 has been written, the status update was refused by the
    database, and the deposit is still pending.  The same request sent again
    credits the wallet a second time. *)
Theorem approval_credit_without_status :
  (patchDepositStatus (Some "root") 0 "approved" (Some longHash) sample).1
  = Ok (Json 400 (BodyMessage "value too long for type character varying(500)"))
  ∧ balanceOf sample "alice" = Some 10000
  ∧ balanceOf (run [PatchDepositStatus (Some "root") 0 "approved" (Some longHash)] sample)
      "alice" = Some 15000
  ∧ depositStatus <$>
      deposits (db (run [PatchDepositStatus (Some "root") 0 "approved" (Some longHash)]
                      sample)) !! 0%nat
    = Some DepositPending
  ∧ balanceOf (run [PatchDepositStatus (Some "root") 0 "approved" (Some longHash);
                    PatchDepositStatus (Some "root") 0 "approved" (Some longHash)] sample)
      "alice" = Some 20000.
Proof. vm_compute. by repeat split. Qed.


Section admin_user_update.
Variables (w : World) (admin id : string) (body : PartialUser) (v : Z).
Variables (adminUser target : User).
Hypothesis admin_named : admin ≠ "".
Hypothesis admin_row : users (db w) !! admin = Some adminUser.
Hypothesis admin_role : role adminUser = RoleAdmin.
Hypothesis target_row : users (db w) !! id = Some target.
Hypothesis body_balance : dataBalanceUsd body = Some v.
Hypothesis body_keeps_id : dataId body = None.
Hypothesis balance_fits : fitsColumn v = true.

(** C4, at the failing request.  An administrator's user update whose body
    has a [balanceUsd] field that the column can hold (and no [id] field,
    which would rename the row) stores that value as the user's balance,
    whatever the balance was: the write is an overwrite, not an adjustment
    of the stored value. *)
Theorem admin_user_update_overwrites_balance :
  balanceOf (patchAdminUser (Some admin) id body w).2 id = Some v.
Proof using All.
  change (wp (patchAdminUser (Some admin) id body)
            (λ _ w', balanceUsd <$> users (db w') !! id = Some v) w).
  unfold patchAdminUser, updateUser. rewrite body_balance, body_keeps_id. cbn [from_option].
  wp_run; try done; try congruence.
  all: rewrite lookup_alter_eq, target_row; cbn; by rewrite body_balance.
Qed.
End admin_user_update.

Lemma admin_user_update_overwrites_balance_witness :
  users (db sample) !! "root" = Some (mkUser 0 RoleAdmin "active")
  ∧ users (db sample) !! "alice" = Some (mkUser 10000 RoleUser "active")
  ∧ balanceOf (patchAdminUser (Some "root") "alice"
                 (mkPartialUser None (Some 99900) None None) sample).2 "alice"
    = Some 99900.
Proof.
  do 2 (split; [reflexivity|]).
  exact (admin_user_update_overwrites_balance sample "root" "alice"
           (mkPartialUser None (Some 99900) None None) 99900
           (mkUser 0 RoleAdmin "active") (mkUser 10000 RoleUser "active")
           ltac:(discriminate) eq_refl eq_refl eq_refl eq_refl eq_refl eq_refl).
Defined.

(** ** Non-negative balances *)

Lemma nonnegBalances_alter (f : User → User) (i : string) (us : gmap string User) :
  nonnegBalances us →
  (∀ row, us !! i = Some row → 0 ≤ balanceUsd (f row)) →
  nonnegBalances (alter f i us).
Proof.
  intros Hus Hf u row [[-> (x & Hx & ->)]|[_ Hrow]]%lookup_alter_Some; eauto.
Qed.

(** A row that moves to a key of its own. *)
Lemma nonnegBalances_rename (row : User) (i j : string) (us : gmap string User) :
  nonnegBalances us → 0 ≤ balanceUsd row → nonnegBalances (<[j := row]> (delete i us)).
Proof.
  intros Hus Hrow u r [[-> <-]|[_ [_ Hr]%lookup_delete_Some]]%lookup_insert_Some; eauto.
Qed.

Lemma nonneg_row {A} (P : A → Prop) (l : list A) (i : nat) (x : A) :
  Forall P l → l !! i = Some x → P x.
Proof. intros Hl Hx. by eapply Forall_lookup_1. Qed.

(** Brings the bounds of the rows that were read into the context. *)
Ltac nonneg_facts :=
  repeat match goal with
  | Hus : nonnegBalances ?us, Hx : ?us !! _ = Some _ |- _ =>
      let T := type of (Hus _ _ Hx) in
      lazymatch goal with
      | _ : T |- _ => fail
      | _ => pose proof (Hus _ _ Hx)
      end
  | Hl : Forall ?P ?l, Hx : ?l !! _ = Some ?x |- _ =>
      let T := eval cbv beta in (P x) in
      lazymatch goal with
      | _ : T |- _ => fail
      | _ => assert T by exact (nonneg_row P l _ x Hl Hx)
      end
  end.

(** Proves that a database obtained by the writes of a handler is still
    non-negative. *)
Ltac nonneg_leaf :=
  nonneg_facts; unfold nonnegDB; st_simpl;
  repeat match goal with |- _ ∧ _ => split end;
  first
    [ assumption
    | apply nonnegBalances_alter;
      [assumption | intros ? ?; simplify_eq; st_simpl; nonneg_facts; cbn; lia]
    | apply nonnegBalances_rename; [assumption | nonneg_facts; cbn; lia]
    | apply Forall_app_2; [assumption | repeat constructor; st_simpl; cbn; lia]
    | apply Forall_alter; [assumption | intros [] ? ?; cbn in *; lia] ].

(** Runs a handler and checks each database it can leave behind. *)
Ltac nonneg_handler :=
  lazymatch goal with
  | |- nonnegDB (db (?m ?w).2) => change (wp m (λ _ w', nonnegDB (db w')) w)
  end;
  wp_run; try done; nonneg_leaf.

Lemma patchAdminUser_nonneg caller id body w :
  (∀ v, dataBalanceUsd body = Some v → 0 ≤ v) →
  nonnegDB (db w) → nonnegDB (db (patchAdminUser caller id body w).2).
Proof.
  intros Hbody (Hus & Hcs & Hbs & Hds).
  destruct body as [newId [v|] newRole newStatus]; cbn in Hbody;
    [pose proof (Hbody v eq_refl)|].
  all: nonneg_handler.
Qed.

Lemma patchCelebrities_nonneg caller id body w :
  (∀ v, dataPriceUsd body = Some v → 0 ≤ v) →
  nonnegDB (db w) → nonnegDB (db (patchCelebrities caller id body w).2).
Proof.
  intros Hbody (Hus & Hcs & Hbs & Hds).
  destruct body as [newName [v|] newStatus other]; cbn in Hbody;
    [pose proof (Hbody v eq_refl)|].
  all: nonneg_handler.
Qed.

Lemma onMessage_db ws data now w : db (onMessage ws data now w) = db w.
Proof. unfold onMessage. by repeat case_match. Qed.

Lemma onClose_db ws w : db (onClose ws w) = db w.
Proof. unfold onClose. by repeat case_match. Qed.

(** One event that carries no negative amount keeps the database
    non-negative. *)
Lemma step_nonneg e w :
  carriesNoNegativeAmount e → nonnegDB (db w) → nonnegDB (db (step e w)).
Proof.
  intros He Hw. pose proof Hw as (Hus & Hcs & Hbs & Hds).
  destruct e; cbn [step carriesNoNegativeAmount] in *;
    try (nonneg_handler; fail).
  - done.
  - case_match; [by rewrite onMessage_db|done].
  - case_match; [done|by rewrite onClose_db].
  - by apply patchCelebrities_nonneg.
  - by apply patchAdminUser_nonneg.
Qed.

Lemma run_snoc es e w : run (es ++ [e]) w = step e (run es w).
Proof. unfold run. by rewrite foldl_app. Qed.

Lemma sampleDB_nonneg : nonnegDB sampleDB.
Proof.
  unfold nonnegDB, sampleDB; cbn [users celebrities bookings deposits].
  split; [|by repeat split; repeat constructor].
  intros u row Hrow.
  apply lookup_insert_Some in Hrow as [[_ <-]|[_ Hrow]]; [done|].
  by apply lookup_singleton_Some in Hrow as [_ <-].
Qed.

(** C6, as stated, fails: an administrator's adjustment of the customer's
    100.00 by -130.00 leaves a balance of -30.00. *)
Lemma adjustment_can_overdraw :
  ¬ (∀ (d : DB) (es : list Event) (u : string) (b : Z),
       nonnegDB d → balanceOf (run es (boot d)) u = Some b → 0 ≤ b).
Proof.
  intros Hfloor.
  specialize (Hfloor sampleDB [PatchAdminUserBalance (Some "root") "alice" (-13000)]
                "alice" (-3000) sampleDB_nonneg eq_refl).
  lia.
Qed.

(** C6, as amended.  Amounts are numbers of whole cents.  Start from a
    database in which no balance, price or amount is negative, and let the
    server take any sequence of requests and socket events none of which
    carries a negative amount (an administrator's adjustment by a negative
    amount, a user update writing a negative balance, a deposit of a negative
    amount and an offering with a negative price are the ones excluded).
    Then no balance, price or amount is negative afterwards: a booking debit
    is refused when the balance is below the price, and credits and refunds
    add amounts that are not negative. *)
Theorem balances_stay_nonnegative (d : DB) (es : list Event) :
  nonnegDB d →
  Forall carriesNoNegativeAmount es →
  nonnegDB (db (run es (boot d)))
  ∧ ∀ u b, balanceOf (run es (boot d)) u = Some b → 0 ≤ b.
Proof.
  intros Hd Hes.
  assert (nonnegDB (db (run es (boot d)))) as Hrun.
  { induction es as [|e es IH] using rev_ind; [done|].
    apply Forall_app in Hes as [Hes He]. apply List.Forall_inv in He.
    rewrite run_snoc. apply step_nonneg; [done|by apply IH]. }
  split; [done|].
  intros u b Hb. unfold balanceOf in Hb.
  destruct (users (db (run es (boot d))) !! u) as [row|] eqn:Hrow; [|done].
  injection Hb as <-. destruct Hrun as [Hus _]. by eapply Hus.
Qed.

Lemma balances_stay_nonnegative_witness :
  nonnegDB sampleDB
  ∧ Forall carriesNoNegativeAmount
      [PostBookings (Some "alice") 0 NoDate "gala"; PatchAdminUserBalance (Some "root") "alice" 500]
  ∧ ∀ u b,
      balanceOf (run [PostBookings (Some "alice") 0 NoDate "gala";
                      PatchAdminUserBalance (Some "root") "alice" 500] (boot sampleDB)) u
      = Some b → 0 ≤ b.
Proof.
  assert (Forall carriesNoNegativeAmount
            [PostBookings (Some "alice") 0 NoDate "gala";
             PatchAdminUserBalance (Some "root") "alice" 500]) as Hes.
  { repeat constructor. cbn. lia. }
  split; [exact sampleDB_nonneg|]. split; [exact Hes|].
  exact (proj2 (balances_stay_nonnegative sampleDB _ sampleDB_nonneg Hes)).
Defined.

(** ** Booking cancellation *)


(** Off the pending-to-cancelled edge a status request touches no balance,
    whoever sends it and whether or not it succeeds. *)
Lemma patchBookingStatus_no_refund w caller id status :
  (∀ b, bookings (db w) !! id = Some b →
        ¬ (status = "cancelled" ∧ bookingStatus b = BookingPending)) →
  users (db (patchBookingStatus caller id status w).2) = users (db w).
Proof.
  intros Hedge.
  change (wp (patchBookingStatus caller id status)
            (λ _ w', users (db w') = users (db w)) w).
  wp_run; try done.
  all: by destruct (Hedge _ eq_refl).
Qed.

(** C8, as stated, fails on its "at most once per booking": the sample
    booking of 80.00 is cancelled, put back to pending and cancelled again,
    and its owner is credited 160.00. *)
Lemma refund_can_fire_twice :
  ¬ (∀ (d : DB) (statuses : list string) (admin : option string) (id : nat)
       (b : Booking) (before after : Z),
       bookings d !! id = Some b →
       balanceOf (boot d) (bookingUserId b) = Some before →
       balanceOf (run (PatchBookingStatus admin id <$> statuses) (boot d))
         (bookingUserId b) = Some after →
       after ≤ before + bookingPriceUsd b).
Proof.
  intros Honce.
  specialize (Honce sampleDB ["cancelled"; "pending"; "cancelled"] (Some "root") 0%nat
                (mkBooking "alice" 0 8000 BookingPending "gala") 10000 26000
                eq_refl eq_refl eq_refl).
  cbn in Honce. lia.
Qed.

Section booking_status.
Variables (w : World) (admin : string) (id : nat) (status : string).
Variables (adminUser owner : User) (booking : Booking) (s : BookingStatus).
Hypothesis admin_named : admin ≠ "".
Hypothesis admin_row : users (db w) !! admin = Some adminUser.
Hypothesis admin_role : role adminUser = RoleAdmin.
Hypothesis booking_row : bookings (db w) !! id = Some booking.
Hypothesis owner_row : users (db w) !! bookingUserId booking = Some owner.
Hypothesis label : booking_status_of_string status = Some s.

(** C8, as amended.  A status request of an administrator credits the
    booking's owner by exactly the price stored in the booking row when and
    only when the request is "cancelled" and the stored status is pending,
    provided the balance column can hold the sum; on every other request,
    among them the cancellation of a booking that is already cancelled,
    confirmed or completed, the users table is left as it was.  The requested
    status is stored in each case, so the refund fires once per passage from
    pending to cancelled, and fires again after a request has put the booking
    back to pending.  The status is written before the refund and apart from
    it: when the balance column cannot hold the sum, the request is answered
    400, the booking is cancelled all the same and its owner is not
    refunded. *)
Theorem refund_on_pending_to_cancelled_edge :
  (status = "cancelled" ∧ bookingStatus booking = BookingPending →
     fitsColumn (balanceUsd owner + bookingPriceUsd booking) = true →
     users (db (patchBookingStatus (Some admin) id status w).2)
     = <[bookingUserId booking
         := mkUser (balanceUsd owner + bookingPriceUsd booking) (role owner)
              (userStatus owner)]> (users (db w)))
  ∧ (¬ (status = "cancelled" ∧ bookingStatus booking = BookingPending) →
     users (db (patchBookingStatus (Some admin) id status w).2) = users (db w))
  ∧ bookingStatus <$> bookings (db (patchBookingStatus (Some admin) id status w).2) !! id
    = Some s
  ∧ (status = "cancelled" ∧ bookingStatus booking = BookingPending →
     fitsColumn (balanceUsd owner + bookingPriceUsd booking) = false →
     (patchBookingStatus (Some admin) id status w).1
     = Ok (Json 400 (BodyMessage "numeric field overflow"))
     ∧ users (db (patchBookingStatus (Some admin) id status w).2) = users (db w)).
Proof using All.
  split; [|split; [|split]].
  - intros Hedge Hfits.
    change (wp (patchBookingStatus (Some admin) id status)
              (λ _ w', users (db w')
                       = <[bookingUserId booking
                           := mkUser (balanceUsd owner + bookingPriceUsd booking)
                                (role owner) (userStatus owner)]> (users (db w)))
              w).
    wp_run; try done; try congruence; try absent_row.
    all: by rewrite (alter_alt_Some _ _ _ _ owner_row).
  - intros Hedge. apply patchBookingStatus_no_refund.
    intros b Hb. rewrite booking_row in Hb. by injection Hb as <-.
  - change (wp (patchBookingStatus (Some admin) id status)
              (λ _ w', bookingStatus <$> bookings (db w') !! id = Some s) w).
    wp_run; try done; try congruence.
    all: by rewrite row_after_update, booking_row.
  - intros Hedge Hfits.
    change (wp (patchBookingStatus (Some admin) id status)
              (λ r w', r = Ok (Json 400 (BodyMessage "numeric field overflow"))
                       ∧ users (db w') = users (db w)) w).
    wp_run; try done; try congruence.
Qed.
End booking_status.

Lemma refund_on_pending_to_cancelled_edge_witness :
  users (db sample) !! "root" = Some (mkUser 0 RoleAdmin "active")
  ∧ bookings (db sample) !! 0%nat = Some (mkBooking "alice" 0 8000 BookingPending "gala")
  ∧ users (db sample) !! "alice" = Some (mkUser 10000 RoleUser "active")
  ∧ booking_status_of_string "cancelled" = Some BookingCancelled
  ∧ users (db (patchBookingStatus (Some "root") 0 "cancelled" sample).2)
    = <["alice" := mkUser 18000 RoleUser "active"]> (users (db sample)).
Proof.
  do 4 (split; [reflexivity|]).
  exact (proj1
    (refund_on_pending_to_cancelled_edge sample "root" 0%nat "cancelled"
       (mkUser 0 RoleAdmin "active") (mkUser 10000 RoleUser "active")
       (mkBooking "alice" 0 8000 BookingPending "gala") BookingCancelled
       ltac:(discriminate) eq_refl eq_refl eq_refl eq_refl eq_refl)
    (conj eq_refl eq_refl) eq_refl).
Defined.


Lemma price_when_fetch_rejects :
  getCryptoPrice "BTC" FetchRejects = 97000%Q
  ∧ getCryptoPrice "ETH" FetchRejects = 3400%Q
  ∧ getCryptoPrice "USDT" FetchRejects = 1%Q.
Proof. by repeat split. Qed.

Lemma price_when_no_data coin coinId entries :
  COINGECKO_IDS coin = Some coinId →
  mjoin (entries !! coinId) = None →
  getCryptoPrice coin (FetchJson (DataObject entries)) = 1%Q.
Proof.
  intros Hid Hnone. unfold getCryptoPrice, usdOf. by rewrite Hid, Hnone.
Qed.

(** C7, at the failing lookup.  When the fetch rejects, the lookup returns
    the static value of the asset (97000 for BTC, 3400 for ETH).  When the
    fetch succeeds with a body that has no entry for the asset, or an entry
    with no price or a price of zero, the lookup returns 1 for BTC and for
    ETH as well, not their static values. *)
Theorem no_data_price_is_not_the_fallback :
  getCryptoPrice "BTC" FetchRejects = 97000%Q
  ∧ getCryptoPrice "BTC" (FetchJson (DataObject ∅)) = 1%Q
  ∧ getCryptoPrice "BTC" (FetchJson (DataObject {[ "bitcoin" := None ]})) = 1%Q
  ∧ getCryptoPrice "BTC" (FetchJson (DataObject {[ "bitcoin" := Some 0%Q ]})) = 1%Q
  ∧ getCryptoPrice "ETH" FetchRejects = 3400%Q
  ∧ getCryptoPrice "ETH" (FetchJson (DataObject ∅)) = 1%Q
  ∧ 1%Q ≠ 97000%Q ∧ 1%Q ≠ 3400%Q.
Proof. by repeat split. Qed.

(** ** Who is sent what *)

Section channels.
Variables (clients : gmap string nat) (sockets : list Connection).
Hypothesis ok : channelsOk clients sockets.

(** A frame for a socket of the channel map. *)
Lemma channelsOk_send u ws f :
  clients !! u = Some ws →
  channelsOk clients (alter (deliver f) ws sockets).
Proof using ok.
  destruct ok as [Hmap Hrecv]. intros Hws. split.
  - intros u' ws' [c [Hc Hid]]%Hmap. rewrite list_lookup_alter.
    case_decide; [subst ws'|by eauto]. rewrite Hc. by exists (deliver f c).
  - intros ws' c. rewrite list_lookup_alter.
    case_decide; [subst ws'|by apply Hrecv].
    destruct (Hmap _ _ Hws) as [c0 [Hc0 Hid]]. rewrite Hc0.
    intros [= <-]. done.
Qed.

(** An untargeted frame for any socket. *)
Lemma channelsOk_deliver ws f :
  untargeted f →
  channelsOk clients (alter (deliver f) ws sockets).
Proof using ok.
  destruct ok as [Hmap Hrecv]. intros Hf. split.
  - intros u' ws' [c [Hc Hid]]%Hmap. rewrite list_lookup_alter.
    case_decide; [subst ws'|by eauto]. rewrite Hc. by exists (deliver f c).
  - intros ws' c. rewrite list_lookup_alter.
    case_decide; [subst ws'|by apply Hrecv].
    destruct (sockets !! ws) as [c0|] eqn:Hc0; [|done].
    intros [= <-] Hid. cbn. apply Forall_app_2; [by apply (Hrecv _ _ Hc0)|by constructor].
Qed.

(** An untargeted frame for every open socket. *)
Lemma channelsOk_broadcast f :
  untargeted f →
  channelsOk clients
    ((λ c, if decide (readyState c = OPEN) then deliver f c else c) <$> sockets).
Proof using ok.
  destruct ok as [Hmap Hrecv]. intros Hf. split.
  - intros u' ws' [c [Hc Hid]]%Hmap. rewrite list_lookup_fmap, Hc. cbn.
    eexists. split; [done|]. by case_decide.
  - intros ws' c. rewrite list_lookup_fmap.
    destruct (sockets !! ws') as [c0|] eqn:Hc0; [|done].
    intros [= <-] Hid. case_decide; [|by apply (Hrecv _ _ Hc0)].
    cbn in *. apply Forall_app_2; [by apply (Hrecv _ _ Hc0)|by constructor].
Qed.

(** A new socket. *)
Lemma channelsOk_connection :
  channelsOk clients (sockets ++ [mkConnection OPEN None []]).
Proof using ok.
  destruct ok as [Hmap Hrecv]. split.
  - intros u' ws' [c [Hc Hid]]%Hmap. exists c. split; [|done].
    by apply lookup_app_l_Some.
  - intros ws' c [Hc|[_ Hc]]%lookup_app_Some; [by apply (Hrecv _ _ Hc)|].
    apply list_lookup_singleton_Some in Hc as [_ <-]. intros _. constructor.
Qed.

(** A socket closes: its entry, if any, leaves the map. *)
Lemma channelsOk_close ws (gone : option string) :
  channelsOk (from_option (λ u, delete u clients) clients gone)
    (alter (setReadyState CLOSED) ws sockets).
Proof using ok.
  destruct ok as [Hmap Hrecv]. split.
  - intros u' ws' Hu'.
    assert (clients !! u' = Some ws') as [c [Hc Hid]]%Hmap.
    { destruct gone as [u|]; cbn in Hu'; [|done].
      by apply lookup_delete_Some in Hu' as [_ ?]. }
    rewrite list_lookup_alter.
    case_decide; [subst ws'|by eauto]. rewrite Hc. by exists (setReadyState CLOSED c).
  - intros ws' c. rewrite list_lookup_alter.
    case_decide; [subst ws'|by apply Hrecv].
    destruct (sockets !! ws) as [c0|] eqn:Hc0; [|done].
    intros [= <-] Hid. by apply (Hrecv _ _ Hc0).
Qed.

(** A socket presents a valid token: it sets its [userId], enters the map
    and is sent [auth_success]. *)
Lemma channelsOk_auth ws u :
  is_Some (sockets !! ws) →
  channelsOk (<[u := ws]> clients)
    (alter (deliver auth_success) ws (alter (setUserId u) ws sockets)).
Proof using ok.
  destruct ok as [Hmap Hrecv]. intros [c0 Hc0]. split.
  - intros u' ws' Hu'. destruct (decide (ws = ws')) as [<-|Hne].
    + rewrite !row_after_update, Hc0. by eexists.
    + rewrite !list_lookup_alter_ne by done.
      apply lookup_insert_Some in Hu' as [[_ ?]|[_ Hu']]; [done|].
      by apply Hmap in Hu'.
  - intros ws' c. destruct (decide (ws = ws')) as [<-|Hne].
    + rewrite !row_after_update, Hc0. by intros [= <-].
    + rewrite !list_lookup_alter_ne by done. by apply Hrecv.
Qed.
End channels.

Ltac channels_leaf :=
  unfold channelsOkIn in *; st_simpl;
  first [ assumption
        | eapply channelsOk_send; eassumption
        | by apply channelsOk_broadcast ].

Ltac channels_handler :=
  intros Hok;
  lazymatch goal with
  | |- channelsOkIn (?m ?w).2 => change (wp m (λ _ w', channelsOkIn w') w)
  end;
  wp_run; try done; channels_leaf.

Lemma onMessage_channels ws data now w :
  isOpen w ws = true → channelsOkIn w → channelsOkIn (onMessage ws data now w).
Proof.
  intros Hopen Hok. unfold channelsOkIn in *.
  assert (is_Some (connections w !! ws)) as Hws.
  { unfold isOpen in Hopen. by destruct (connections w !! ws). }
  unfold onMessage. repeat case_match; st_simpl; try done.
  - by apply channelsOk_auth.
  - by apply channelsOk_deliver.
  - by apply channelsOk_deliver.
Qed.

Lemma onClose_channels ws w : channelsOkIn w → channelsOkIn (onClose ws w).
Proof.
  intros Hok. unfold channelsOkIn in *. unfold onClose.
  destruct (connections w !! ws) as [c|]; [destruct (truthy (userId c))|]; st_simpl.
  - by apply (channelsOk_close _ _ Hok ws (Some (default "" (userId c)))).
  - by apply (channelsOk_close _ _ Hok ws None).
  - by apply (channelsOk_close _ _ Hok ws None).
Qed.

Lemma step_channels e w : channelsOkIn w → channelsOkIn (step e w).
Proof.
  destruct e; cbn [step]; try (channels_handler; fail).
  - intros Hok. by apply channelsOk_connection.
  - intros Hok. case_match; [by apply onMessage_channels|done].
  - intros Hok. case_match; [done|by apply onClose_channels].
Qed.

(** C9, as stated, fails: a socket that has sent no [auth] message is sent
    the [new_message] frame of a customer's message. *)
Lemma unauthenticated_socket_gets_broadcast :
  ¬ (∀ (d : DB) (es : list Event) (ws : nat) (c : Connection) (f : Frame),
       connections (run es (boot d)) !! ws = Some c →
       userId c = None → f ∈ received c → isPush f = false).
Proof.
  intros Hnone.
  specialize (Hnone sampleDB
                [WsConnection; PostMessages (Some "alice") "booking-0" "booking" 0 "hello"]
                0%nat
                (mkConnection OPEN None
                   [new_message "booking-0"
                      (mkMessage "booking-0" ThreadBooking 0 SenderUser "alice" "hello") true])
                (new_message "booking-0"
                   (mkMessage "booking-0" ThreadBooking 0 SenderUser "alice" "hello") true)
                eq_refl eq_refl).
  cbn in Hnone. specialize (Hnone ltac:(by apply list_elem_of_singleton)). done.
Qed.

(** C9, as amended.  In every state the server can reach, each socket
    registered in the channel map, which is where a targeted push is written,
    has completed the token authentication; and a socket that has not
    completed it has been sent nothing but refusals of its [auth] messages
    and the [new_message] frames that the message route broadcasts to every
    open socket when the sender is no administrator.  No notification,
    booking update, deposit update or administrator's message reaches it. *)
Theorem unauthenticated_socket_frames (d : DB) (es : list Event) :
  (∀ u ws, wsClients (run es (boot d)) !! u = Some ws →
     ∃ c, connections (run es (boot d)) !! ws = Some c ∧ userId c ≠ None)
  ∧ (∀ ws c f, connections (run es (boot d)) !! ws = Some c →
       userId c = None → f ∈ received c → untargeted f).
Proof.
  assert (channelsOkIn (run es (boot d))) as [Hmap Hrecv].
  { induction es as [|e es IH] using rev_ind.
    - split; [intros u ws Hu; cbn in Hu; by rewrite lookup_empty in Hu|by intros [|n] c].
    - rewrite run_snoc. by apply step_channels. }
  split; [done|].
  intros ws c f Hc Hid Hf. specialize (Hrecv ws c Hc Hid).
  rewrite Forall_forall in Hrecv. by apply Hrecv.
Qed.

(** ** A superseded socket closes *)






Section superseded.
Variables (w : World) (u token : string) (old new : nat) (now : Z).
Variables (oldSocket : Connection) (tokenData : TokenData).
Hypothesis old_registered : wsClients w !! u = Some old.
Hypothesis old_socket : connections w !! old = Some oldSocket.
Hypothesis old_user : userId oldSocket = Some u.
Hypothesis user_named : u ≠ "".
Hypothesis old_not_closed : readyState oldSocket ≠ CLOSED.
Hypothesis new_other : new ≠ old.
Hypothesis new_open : isOpen w new = true.
Hypothesis token_given : token ≠ "".
Hypothesis token_stored : wsAuthTokens w !! token = Some tokenData.
Hypothesis token_user : tokenUserId tokenData = u.
Hypothesis token_fresh : now < expires tokenData.

Let w1 := step (WsMessage new (Parsed "auth" (Some token)) now) w.
Let w2 := step (WsClose old) w1.

End superseded.



(** * Further properties of the routes and the storage layer *)

(** ** The two gates in front of the handlers *)

Lemma step_handlerOf e h w : handlerOf e = Some h → step e w = (h w).2.
Proof. destruct e; cbn; by intros [= <-]. Qed.

(** X1.  A request without a session is answered 401 by every route and writes
    nothing: no table, no map and no socket changes. *)
Theorem no_session_no_effect e h w :
  handlerOf e = Some h →
  callerOf e = None →
  h w = (Ok (Json 401 (BodyMessage "Unauthorized")), w).
Proof.
  intros Hh Hcaller. destruct e; cbn in Hh, Hcaller; simplify_eq; done.
Qed.

Lemma no_session_no_effect_witness :
  handlerOf (PostBookings None 0 NoDate "gala") = Some (postBookings None 0 NoDate "gala")
  ∧ callerOf (PostBookings None 0 NoDate "gala") = None
  ∧ postBookings None 0 NoDate "gala" sample = (Ok (Json 401 (BodyMessage "Unauthorized")), sample).
Proof.
  do 2 (split; [reflexivity|]).
  exact (no_session_no_effect (PostBookings None 0 NoDate "gala") _ sample eq_refl eq_refl).
Defined.

(** Passing [isAdmin] needs a session with a user id that is not empty, and
    a stored user of that id with the role admin. *)
Lemma isAdmin_unauthorized next w :
  isAdmin "" next w = (Ok (Json 401 (BodyMessage "Unauthorized")), w).
Proof. done. Qed.

Lemma isAdmin_refuses sub next w :
  sub ≠ "" →
  isAdminUser (users (db w) !! sub) = false →
  isAdmin sub next w = (Ok (Json 403 (BodyMessage "Forbidden - Admin access required")), w).
Proof.
  intros Hnamed Hrole. apply wp_pair. unfold isAdminUser in Hrole.
  wp_run; try done; try (by destruct w).
  by rewrite bool_decide_true in Hrole.
Qed.

(** X2.  A request to a route behind [isAdmin] whose session carries an empty
    user id is answered 401, and one by a caller who is not a stored
    administrator is answered 403; neither writes anything. *)
Theorem admin_routes_refuse_others e h sub w :
  handlerOf e = Some h →
  adminRoute e = true →
  callerOf e = Some sub →
  (sub = "" → h w = (Ok (Json 401 (BodyMessage "Unauthorized")), w))
  ∧ (sub ≠ "" → isAdminUser (users (db w) !! sub) = false →
     h w = (Ok (Json 403 (BodyMessage "Forbidden - Admin access required")), w))
  ∧ (sub = "" ∨ isAdminUser (users (db w) !! sub) = false → step e w = w).
Proof.
  intros Hh Hadmin Hcaller.
  assert (sub = "" → h w = (Ok (Json 401 (BodyMessage "Unauthorized")), w)) as Hempty.
  { intros ->. destruct e; cbn in Hh, Hadmin, Hcaller; simplify_eq; done. }
  assert (sub ≠ "" → isAdminUser (users (db w) !! sub) = false →
          h w = (Ok (Json 403 (BodyMessage "Forbidden - Admin access required")), w))
    as Hother.
  { intros Hnamed Hrole. destruct e; cbn in Hh, Hadmin, Hcaller; simplify_eq; try done.
    all: by apply isAdmin_refuses. }
  split; [done|]. split; [done|].
  intros Hrefused. rewrite (step_handlerOf _ _ _ Hh).
  destruct (decide (sub = "")) as [Hsub|Hsub]; [by rewrite Hempty|].
  destruct Hrefused as [?|Hrole]; [done|]. by rewrite Hother.
Qed.

Lemma admin_routes_refuse_others_witness :
  handlerOf (PatchAdminUserBalance (Some "alice") "alice" 100000)
  = Some (patchAdminUserBalance (Some "alice") "alice" 100000)
  ∧ isAdminUser (users (db sample) !! "alice") = false
  ∧ step (PatchAdminUserBalance (Some "alice") "alice" 100000) sample = sample.
Proof.
  do 2 (split; [reflexivity|]).
  exact (proj2 (proj2 (admin_routes_refuse_others
                         (PatchAdminUserBalance (Some "alice") "alice" 100000) _ "alice" sample
                         eq_refl eq_refl eq_refl))
           (or_intror eq_refl)).
Defined.

(** ** The handshake token *)

(** What a socket's [auth] message does when the token is stored and fresh. *)
Lemma onMessage_accepts ws token now tokenData w :
  token ≠ "" →
  wsAuthTokens w !! token = Some tokenData →
  now < expires tokenData →
  onMessage ws (Parsed "auth" (Some token)) now w
  = send ws auth_success
      (set_wsAuthTokens (delete token)
         (set_wsClients (insert (tokenUserId tokenData) ws)
            (set_connections (alter (setUserId (tokenUserId tokenData)) ws) w))).
Proof.
  intros Htoken Hstored Hfresh. unfold onMessage.
  rewrite bool_decide_true by done. cbn [truthy andb default from_option].
  rewrite bool_decide_true by done. change (id token) with token.
  rewrite Hstored. by rewrite decide_True.
Qed.

(** What it does when the token is unknown or its time is over. *)
Lemma onMessage_refuses ws token now w :
  token ≠ "" →
  (∀ tokenData, wsAuthTokens w !! token = Some tokenData → expires tokenData ≤ now) →
  onMessage ws (Parsed "auth" (Some token)) now w
  = send ws (auth_error "Invalid or expired token") w.
Proof.
  intros Htoken Hold. unfold onMessage.
  rewrite bool_decide_true by done. cbn [truthy andb default from_option].
  rewrite bool_decide_true by done. change (id token) with token.
  destruct (wsAuthTokens w !! token) as [tokenData|]; [|done].
  specialize (Hold tokenData eq_refl). rewrite decide_False by lia. done.
Qed.

(** X3.  A token fetched from [GET /api/auth/ws-token] and presented by an open
    socket less than 60000 ms later binds the socket to the user who fetched
    it: the socket enters the channel map under that user, its [userId] is
    set, it is sent [auth_success], and the token is gone from the store. *)
Theorem token_round_trip w u rnd issued ws now :
  rnd ≠ "" →
  isOpen w ws = true →
  now < issued + 60000 →
  (getWsToken (Some u) rnd issued w).1 = Ok (Json 200 (BodyToken rnd))
  ∧ wsClients (run [GetWsToken (Some u) rnd issued;
                    WsMessage ws (Parsed "auth" (Some rnd)) now] w) !! u = Some ws
  ∧ (∃ c, connections (run [GetWsToken (Some u) rnd issued;
                            WsMessage ws (Parsed "auth" (Some rnd)) now] w) !! ws = Some c
          ∧ userId c = Some u ∧ last (received c) = Some auth_success)
  ∧ wsAuthTokens (run [GetWsToken (Some u) rnd issued;
                       WsMessage ws (Parsed "auth" (Some rnd)) now] w) !! rnd = None.
Proof.
  intros Hrnd Hopen Hfresh. split; [done|].
  assert (step (GetWsToken (Some u) rnd issued) w
          = set_wsAuthTokens (insert rnd (mkTokenData u (issued + 60000))) w) as Hmint by done.
  cbn [run foldl]. rewrite Hmint.
  cbn [step]. unfold isOpen in *. st_simpl. 
  destruct (connections w !! ws) as [c|] eqn:Hc; [|done]. rewrite Hopen.
  rewrite (onMessage_accepts ws rnd now (mkTokenData u (issued + 60000)));
    [|done|st_simpl; by rewrite lookup_insert_eq|done].
  st_simpl. rewrite lookup_insert_eq, lookup_delete_eq, !row_after_update, Hc.
  split; [done|]. split; [|done].
  eexists. split; [done|]. split; [done|]. cbn. by rewrite last_snoc.
Qed.

Lemma token_round_trip_witness :
  isOpen (onConnection sample) 0 = true
  ∧ wsClients (run [GetWsToken (Some "alice") "k3yq0" 1000;
                    WsMessage 0 (Parsed "auth" (Some "k3yq0")) 60999] (onConnection sample))
      !! "alice" = Some 0%nat.
Proof.
  split; [reflexivity|].
  exact (proj1 (proj2 (token_round_trip (onConnection sample) "alice" "k3yq0" 1000 0%nat 60999
                         ltac:(discriminate) eq_refl ltac:(reflexivity)))).
Defined.

(** X4.  A token works once.  After a socket has presented a stored, fresh token,
    the same token presented again, by any open socket at any time, is
    answered [auth_error]; the channel map, the token store and every
    socket's [userId] stay as the first use left them. *)
Theorem token_single_use w ws token now tokenData ws' now' :
  token ≠ "" →
  wsAuthTokens w !! token = Some tokenData →
  now < expires tokenData →
  wsAuthTokens (onMessage ws (Parsed "auth" (Some token)) now w) !! token = None
  ∧ onMessage ws' (Parsed "auth" (Some token)) now'
      (onMessage ws (Parsed "auth" (Some token)) now w)
    = send ws' (auth_error "Invalid or expired token")
        (onMessage ws (Parsed "auth" (Some token)) now w).
Proof.
  intros Htoken Hstored Hfresh.
  assert (wsAuthTokens (onMessage ws (Parsed "auth" (Some token)) now w) !! token = None)
    as Hgone.
  { rewrite (onMessage_accepts _ _ _ _ _ Htoken Hstored Hfresh). st_simpl.
    apply lookup_delete_eq. }
  split; [done|]. apply onMessage_refuses; [done|]. intros td Htd. congruence.
Qed.

Lemma token_single_use_witness :
  wsAuthTokens twoSockets !! "t2" = Some (mkTokenData "alice" 60020)
  ∧ wsAuthTokens (onMessage 1 (Parsed "auth" (Some "t2")) 30 twoSockets) !! "t2" = None.
Proof.
  split; [vm_compute; reflexivity|].
  exact (proj1 (token_single_use twoSockets 1%nat "t2" 30 (mkTokenData "alice" 60020) 0%nat 31
                  ltac:(discriminate) ltac:(vm_compute; reflexivity) ltac:(reflexivity))).
Defined.

(** X5.  A token that is unknown, or presented at or after its expiry time, is
    answered [auth_error]: the socket is not registered, its [userId] is not
    set, and an expired token is left in the store. *)
Theorem stale_token_refused w ws token now :
  token ≠ "" →
  (∀ tokenData, wsAuthTokens w !! token = Some tokenData → expires tokenData ≤ now) →
  wsClients (onMessage ws (Parsed "auth" (Some token)) now w) = wsClients w
  ∧ wsAuthTokens (onMessage ws (Parsed "auth" (Some token)) now w) = wsAuthTokens w
  ∧ db (onMessage ws (Parsed "auth" (Some token)) now w) = db w
  ∧ connections (onMessage ws (Parsed "auth" (Some token)) now w)
    = alter (deliver (auth_error "Invalid or expired token")) ws (connections w)
  ∧ userId <$> connections (onMessage ws (Parsed "auth" (Some token)) now w) !! ws
    = userId <$> connections w !! ws.
Proof.
  intros Htoken Hold. rewrite (onMessage_refuses _ _ _ _ Htoken Hold). st_simpl.
  do 4 (split; [done|]). rewrite row_after_update. by destruct (connections w !! ws).
Qed.

Lemma stale_token_refused_witness :
  wsAuthTokens twoSockets !! "t2" = Some (mkTokenData "alice" 60020)
  ∧ wsClients (onMessage 1 (Parsed "auth" (Some "t2")) 60020 twoSockets)
    = wsClients twoSockets.
Proof.
  split; [vm_compute; reflexivity|].
  refine (proj1 (stale_token_refused twoSockets 1%nat "t2" 60020 ltac:(discriminate) _)).
  intros td Htd.
  assert (wsAuthTokens twoSockets !! "t2" = Some (mkTokenData "alice" 60020)) as Hst
    by (vm_compute; reflexivity).
  rewrite Hst in Htd. injection Htd as <-. cbn. lia.
Defined.

(** ** Sockets over time *)

Lemma socketAdvances_refl c : socketAdvances c c.
Proof. by repeat split. Qed.

Lemma socketAdvances_trans c1 c2 c3 :
  socketAdvances c1 c2 → socketAdvances c2 c3 → socketAdvances c1 c3.
Proof.
  intros (Hp1 & Hu1 & Hc1) (Hp2 & Hu2 & Hc2). repeat split.
  - by etrans.
  - auto.
  - intros Hclosed. specialize (Hc1 Hclosed). subst c2. auto.
Qed.

Lemma socketsAdvance_refl cs : socketsAdvance cs cs.
Proof. intros ws c Hc. exists c. split; [done|apply socketAdvances_refl]. Qed.

Lemma socketsAdvance_trans cs1 cs2 cs3 :
  socketsAdvance cs1 cs2 → socketsAdvance cs2 cs3 → socketsAdvance cs1 cs3.
Proof.
  intros H12 H23 ws c1 Hc1.
  destruct (H12 _ _ Hc1) as (c2 & Hc2 & Ha). destruct (H23 _ _ Hc2) as (c3 & Hc3 & Hb).
  exists c3. split; [done|by eapply socketAdvances_trans].
Qed.

Lemma socketsAdvance_alter (f : Connection → Connection) i cs :
  (∀ c, cs !! i = Some c → socketAdvances c (f c)) →
  socketsAdvance cs (alter f i cs).
Proof.
  intros Hf ws c Hc. destruct (decide (i = ws)) as [->|Hne].
  - rewrite row_after_update, Hc. eexists. split; [done|by apply Hf].
  - rewrite list_lookup_alter_ne by done. exists c. split; [done|apply socketAdvances_refl].
Qed.

Lemma socketAdvances_deliver f c :
  readyState c ≠ CLOSED → socketAdvances c (deliver f c).
Proof. intros Hopen. repeat split; [by apply prefix_app_r|done..]. Qed.

(** A frame written to an open socket. *)
Lemma socketsAdvance_send f i cs :
  (∀ c, cs !! i = Some c → readyState c = OPEN) →
  socketsAdvance cs (alter (deliver f) i cs).
Proof.
  intros Hopen. apply socketsAdvance_alter. intros c Hc.
  apply socketAdvances_deliver. rewrite (Hopen c Hc). done.
Qed.

(** A frame written to every open socket. *)
Lemma socketsAdvance_broadcast f cs :
  socketsAdvance cs ((λ c, if decide (readyState c = OPEN) then deliver f c else c) <$> cs).
Proof.
  intros ws c Hc. rewrite list_lookup_fmap, Hc. cbn. eexists. split; [done|].
  case_decide as Hopen; [|apply socketAdvances_refl].
  apply socketAdvances_deliver. by rewrite Hopen.
Qed.

Lemma isOpen_OPEN w ws c :
  isOpen w ws = true → connections w !! ws = Some c → readyState c = OPEN.
Proof.
  unfold isOpen. intros Hopen Hc. rewrite Hc in Hopen. by apply bool_decide_eq_true in Hopen.
Qed.

Ltac sockets_leaf w :=
  st_simpl;
  first
    [ apply socketsAdvance_refl
    | apply socketsAdvance_broadcast
    | apply socketsAdvance_send; intros ? ?;
      match goal with
      | H : isOpen _ _ = true |- _ => by eapply (isOpen_OPEN _ _ _ H)
      end ].

Lemma onMessage_sockets ws data now w :
  isOpen w ws = true →
  socketsAdvance (connections w) (connections (onMessage ws data now w)).
Proof.
  intros Hopen. unfold onMessage. repeat case_match; st_simpl;
    try apply socketsAdvance_refl.
  - eapply socketsAdvance_trans; apply socketsAdvance_alter; intros c Hc.
    + pose proof (isOpen_OPEN _ _ _ Hopen Hc) as Hc'.
      repeat split; cbn; [done..|]. by rewrite Hc'.
    + rewrite row_after_update in Hc.
      destruct (connections w !! ws) as [c0|] eqn:Hc0; [|done]. injection Hc as <-.
      apply socketAdvances_deliver. cbn. by rewrite (isOpen_OPEN _ _ _ Hopen Hc0).
  - apply socketsAdvance_send. intros c Hc. by eapply isOpen_OPEN.
  - apply socketsAdvance_send. intros c Hc. by eapply isOpen_OPEN.
Qed.

Lemma onClose_sockets ws w :
  isClosed w ws = false →
  socketsAdvance (connections w) (connections (onClose ws w)).
Proof.
  intros Hclosed.
  assert (connections (onClose ws w) = alter (setReadyState CLOSED) ws (connections w)) as ->.
  { unfold onClose. by repeat case_match. }
  apply socketsAdvance_alter. intros c Hc. unfold isClosed in Hclosed.
  rewrite Hc in Hclosed. apply bool_decide_eq_false in Hclosed. by repeat split.
Qed.

Lemma step_sockets e w : socketsAdvance (connections w) (connections (step e w)).
Proof.
  destruct e; cbn [step];
    try (lazymatch goal with
         | |- socketsAdvance _ (connections (?m ?w).2) =>
             change (wp m (λ _ w', socketsAdvance (connections w) (connections w')) w)
         end; wp_run; sockets_leaf w; fail).
  - intros ws c Hc. exists c. split; [by apply lookup_app_l_Some|apply socketAdvances_refl].
  - case_match; [by apply onMessage_sockets|apply socketsAdvance_refl].
  - case_match; [apply socketsAdvance_refl|by apply onClose_sockets].
Qed.

(** X6.  Through any sequence of events no socket is forgotten, the frames sent to
    a socket are kept and only followed by more, a socket bound to a user is
    never unbound, and a closed socket is never written to or reopened. *)
Theorem sockets_only_advance es w ws c :
  connections w !! ws = Some c →
  ∃ c', connections (run es w) !! ws = Some c'
        ∧ received c `prefix_of` received c'
        ∧ (userId c ≠ None → userId c' ≠ None)
        ∧ (readyState c = CLOSED → c' = c).
Proof.
  assert (socketsAdvance (connections w) (connections (run es w))) as Hrun.
  { induction es as [|e es IH] using rev_ind; [apply socketsAdvance_refl|].
    rewrite run_snoc. eapply socketsAdvance_trans; [exact IH|apply step_sockets]. }
  intros Hc. destruct (Hrun ws c Hc) as (c' & Hc' & Hadv). by exists c'.
Qed.

Lemma sockets_only_advance_witness :
  connections twoSockets !! 0%nat = Some (mkConnection OPEN (Some "alice") [auth_success])
  ∧ ∃ c', connections (run [WsClose 0; PostBookings (Some "alice") 0 NoDate "gala"] twoSockets)
            !! 0%nat = Some c'
          ∧ [auth_success] `prefix_of` received c'.
Proof.
  split; [vm_compute; reflexivity|].
  destruct (sockets_only_advance [WsClose 0; PostBookings (Some "alice") 0 NoDate "gala"]
              twoSockets 0%nat (mkConnection OPEN (Some "alice") [auth_success])
              ltac:(vm_compute; reflexivity)) as (c' & Hc' & Hp & _).
  exists c'. by split.
Defined.

(** ** Stored rows over time *)

Section rows.
Context {A : Type} (same : A → A → Prop).
Hypothesis same_refl : ∀ x, same x x.
Hypothesis same_trans : ∀ x y z, same x y → same y z → same x z.

Lemma rowsKept_refl l : rowsKept same l l.
Proof using same_refl. intros i x Hx. by exists x. Qed.

Lemma rowsKept_trans l1 l2 l3 :
  rowsKept same l1 l2 → rowsKept same l2 l3 → rowsKept same l1 l3.
Proof using same_trans.
  intros H12 H23 i x Hx. destruct (H12 _ _ Hx) as (y & Hy & Hxy).
  destruct (H23 _ _ Hy) as (z & Hz & Hyz). exists z. split; [done|by eapply same_trans].
Qed.

Lemma rowsKept_app l k : rowsKept same l (l ++ k).
Proof using same_refl.
  intros i x Hx. exists x. split; [by apply lookup_app_l_Some|done].
Qed.

Lemma rowsKept_alter (f : A → A) j l :
  (∀ x, same x (f x)) → rowsKept same l (alter f j l).
Proof using same_refl.
  intros Hf i x Hx. destruct (decide (j = i)) as [->|Hne].
  - rewrite row_after_update, Hx. by eexists.
  - rewrite list_lookup_alter_ne by done. by exists x.
Qed.

Lemma rowsKept_fmap (f : A → A) l :
  (∀ x, same x (f x)) → rowsKept same l (f <$> l).
Proof using Type.
  intros Hf i x Hx. rewrite list_lookup_fmap, Hx. by eexists.
Qed.
End rows.

Lemma sameBooking_refl b : sameBooking b b.
Proof. by repeat split. Qed.
Lemma sameBooking_trans b1 b2 b3 : sameBooking b1 b2 → sameBooking b2 b3 → sameBooking b1 b3.
Proof. intros (?&?&?&?) (?&?&?&?). repeat split; congruence. Qed.
Lemma sameDeposit_refl dep : sameDeposit dep dep.
Proof. by repeat split. Qed.
Lemma sameDeposit_trans d1 d2 d3 : sameDeposit d1 d2 → sameDeposit d2 d3 → sameDeposit d1 d3.
Proof. intros (?&?&?) (?&?&?). repeat split; congruence. Qed.
Lemma sameNotification_refl n : sameNotification n n.
Proof. by repeat split. Qed.
Lemma sameNotification_trans n1 n2 n3 :
  sameNotification n1 n2 → sameNotification n2 n3 → sameNotification n1 n3.
Proof. intros (?&?&?&?) (?&?&?&?). repeat split; try congruence. auto. Qed.

(** Turns a goal about a table after one event into one goal for each way
    the handler of the event can end. *)
Ltac table_step leaf :=
  lazymatch goal with
  | |- ?R (?p (db ?w)) (?p (db (step ?e ?w))) =>
      destruct e; cbn [step];
      [ apply leaf
      | case_match; [rewrite onMessage_db|]; apply leaf
      | case_match; [|rewrite onClose_db]; apply leaf
      | lazymatch goal with
        | |- R (p (db ?w)) (p (db (?m ?w).2)) =>
            change (wp m (λ _ w', R (p (db w)) (p (db w'))) w)
        end; wp_run; st_simpl .. ]
  end.

Lemma step_bookings e w : rowsKept sameBooking (bookings (db w)) (bookings (db (step e w))).
Proof.
  table_step (rowsKept_refl sameBooking sameBooking_refl).
  all: first [ apply rowsKept_refl, sameBooking_refl
             | apply rowsKept_app, sameBooking_refl
             | apply rowsKept_alter; [apply sameBooking_refl|by intros []] ].
Qed.

Lemma step_deposits e w : rowsKept sameDeposit (deposits (db w)) (deposits (db (step e w))).
Proof.
  table_step (rowsKept_refl sameDeposit sameDeposit_refl).
  all: first [ apply rowsKept_refl, sameDeposit_refl
             | apply rowsKept_app, sameDeposit_refl
             | apply rowsKept_alter; [apply sameDeposit_refl|by intros []] ].
Qed.

Lemma step_notifications e w :
  rowsKept sameNotification (notifications (db w)) (notifications (db (step e w))).
Proof.
  table_step (rowsKept_refl sameNotification sameNotification_refl).
  all: first [ apply rowsKept_refl, sameNotification_refl
             | apply rowsKept_app, sameNotification_refl
             | apply rowsKept_alter; [apply sameNotification_refl|by intros []]
             | apply rowsKept_fmap; intros []; by case_decide ].
Qed.

Lemma step_adminLogs e w : adminLogs (db w) `prefix_of` adminLogs (db (step e w)).
Proof.
  table_step (reflexivity (R := @prefix AdminLog) (adminLogs (db w))).
  all: first [ done | by apply prefix_app_r ].
Qed.

Lemma step_messages e w : messages (db w) `prefix_of` messages (db (step e w)).
Proof.
  table_step (reflexivity (R := @prefix Message) (messages (db w))).
  all: first [ done | by apply prefix_app_r ].
Qed.

Lemma run_bookings es w : rowsKept sameBooking (bookings (db w)) (bookings (db (run es w))).
Proof.
  induction es as [|e es IH] using rev_ind; [apply rowsKept_refl, sameBooking_refl|].
  rewrite run_snoc.
  eapply rowsKept_trans; [apply sameBooking_trans|exact IH|apply step_bookings].
Qed.

(** X7.  A booking, once stored, is never removed, and whatever happens later
    (status changes, changes of the offering's price, cancellations) its owner,
    its offering, its price and its details stay as they were stored: only
    the status of a booking is ever rewritten. *)
Theorem booking_snapshot_kept es w i b :
  bookings (db w) !! i = Some b →
  ∃ b', bookings (db (run es w)) !! i = Some b'
        ∧ bookingUserId b' = bookingUserId b
        ∧ bookingCelebrityId b' = bookingCelebrityId b
        ∧ bookingPriceUsd b' = bookingPriceUsd b
        ∧ eventDetails b' = eventDetails b.
Proof. intros Hb. by destruct (run_bookings es w i b Hb) as (b' & Hb' & Hsame); exists b'. Qed.

Lemma booking_snapshot_kept_witness :
  bookings (db sample) !! 0%nat = Some (mkBooking "alice" 0 8000 BookingPending "gala")
  ∧ ∃ b', bookings (db (run [PatchCelebrities (Some "root") 0
                               (mkPartialCelebrity None (Some 99900) None false);
                             PatchBookingStatus (Some "root") 0 "confirmed"] sample))
            !! 0%nat = Some b'
          ∧ bookingPriceUsd b' = 8000.
Proof.
  split; [reflexivity|].
  destruct (booking_snapshot_kept
              [PatchCelebrities (Some "root") 0 (mkPartialCelebrity None (Some 99900) None false);
               PatchBookingStatus (Some "root") 0 "confirmed"]
              sample 0%nat (mkBooking "alice" 0 8000 BookingPending "gala") eq_refl)
    as (b' & Hb' & _ & _ & Hprice & _).
  exists b'. by split.
Defined.

Lemma run_deposits es w : rowsKept sameDeposit (deposits (db w)) (deposits (db (run es w))).
Proof.
  induction es as [|e es IH] using rev_ind; [apply rowsKept_refl, sameDeposit_refl|].
  rewrite run_snoc.
  eapply rowsKept_trans; [apply sameDeposit_trans|exact IH|apply step_deposits].
Qed.

(** X8.  A deposit, once stored, is never removed, and its owner, its amount in
    USD and its asset stay as they were stored: a later approval credits the
    amount recorded at creation. *)
Theorem deposit_amount_kept es w i dep :
  deposits (db w) !! i = Some dep →
  ∃ dep', deposits (db (run es w)) !! i = Some dep'
          ∧ depositUserId dep' = depositUserId dep
          ∧ amountUsd dep' = amountUsd dep
          ∧ coin dep' = coin dep.
Proof. intros Hd. by destruct (run_deposits es w i dep Hd) as (dep' & Hd' & Hsame); exists dep'. Qed.

Lemma deposit_amount_kept_witness :
  deposits (db sample) !! 0%nat = Some (mkDeposit "alice" 5000 "BTC" None DepositPending)
  ∧ ∃ dep', deposits (db (run [PatchDepositStatus (Some "root") 0 "rejected" (Some "0xabc");
                               PatchDepositStatus (Some "root") 0 "approved" None] sample))
              !! 0%nat = Some dep'
            ∧ amountUsd dep' = 5000.
Proof.
  split; [reflexivity|].
  destruct (deposit_amount_kept
              [PatchDepositStatus (Some "root") 0 "rejected" (Some "0xabc");
               PatchDepositStatus (Some "root") 0 "approved" None]
              sample 0%nat (mkDeposit "alice" 5000 "BTC" None DepositPending) eq_refl)
    as (dep' & Hd' & _ & Hamount & _).
  exists dep'. by split.
Defined.

Lemma run_notifications es w :
  rowsKept sameNotification (notifications (db w)) (notifications (db (run es w))).
Proof.
  induction es as [|e es IH] using rev_ind; [apply rowsKept_refl, sameNotification_refl|].
  rewrite run_snoc.
  eapply rowsKept_trans; [apply sameNotification_trans|exact IH|apply step_notifications].
Qed.

(** X9.  A notification, once stored, is never removed or readdressed, and its
    read flag only moves forward: a notification that is read is never unread
    again. *)
Theorem notification_read_is_final es w i n :
  notifications (db w) !! i = Some n →
  ∃ n', notifications (db (run es w)) !! i = Some n'
        ∧ notifUserId n' = notifUserId n
        ∧ title n' = title n
        ∧ notifType n' = notifType n
        ∧ (isRead n = true → isRead n' = true).
Proof.
  intros Hn. by destruct (run_notifications es w i n Hn) as (n' & Hn' & Hsame); exists n'.
Qed.

(** X10.  The administrators' log and the messages table are append-only: after
    any sequence of events the rows stored before are still there, unchanged
    and in the same order, at the head of the table. *)
Theorem log_and_messages_append_only es w :
  adminLogs (db w) `prefix_of` adminLogs (db (run es w))
  ∧ messages (db w) `prefix_of` messages (db (run es w)).
Proof.
  induction es as [|e es [IHl IHm]] using rev_ind; [done|].
  rewrite run_snoc. split.
  - etrans; [exact IHl|apply step_adminLogs].
  - etrans; [exact IHm|apply step_messages].
Qed.

Lemma notification_read_is_final_witness :
  notifications (db (run [PostBookings (Some "alice") 0 NoDate "gala";
                          PostNotificationsReadAll (Some "alice")] sample)) !! 0%nat
  = Some (mkNotification "alice" "Booking Submitted" "booking" true)
  ∧ ∃ n', notifications
            (db (run [PatchBookingStatus (Some "root") 0 "confirmed"]
                   (run [PostBookings (Some "alice") 0 NoDate "gala";
                         PostNotificationsReadAll (Some "alice")] sample))) !! 0%nat
          = Some n'
          ∧ isRead n' = true.
Proof.
  split; [vm_compute; reflexivity|].
  destruct (notification_read_is_final
              [PatchBookingStatus (Some "root") 0 "confirmed"]
              (run [PostBookings (Some "alice") 0 NoDate "gala";
                    PostNotificationsReadAll (Some "alice")] sample)
              0%nat (mkNotification "alice" "Booking Submitted" "booking" true)
              ltac:(vm_compute; reflexivity))
    as (n' & Hn' & _ & _ & _ & Hread).
  exists n'. split; [exact Hn'|exact (Hread eq_refl)].
Defined.


(** ** The users table over time *)

Lemma lookup_alter_fmap {B} (g : User → B) (f : User → User) i (us : gmap string User) u :
  (∀ x, g (f x) = g x) → g <$> alter f i us !! u = g <$> us !! u.
Proof.
  intros Hf. rewrite lookup_alter. case_decide; [subst|done].
  destruct (us !! u); cbn; [by rewrite Hf|done].
Qed.

Lemma rolesKept_refl us : rolesKept us us.
Proof. done. Qed.
Lemma balancesKept_refl us : balancesKept us us.
Proof. done. Qed.
Lemma sameUsers_refl us : sameUsers us us.
Proof. done. Qed.

Lemma sameUsers_alter f i (us : gmap string User) : sameUsers us (alter f i us).
Proof.
  intros u. rewrite lookup_alter. case_decide; [subst|done].
  by rewrite fmap_is_Some.
Qed.

Lemma step_users e w :
  isUserUpdate e = false → sameUsers (users (db w)) (users (db (step e w))).
Proof.
  intros Hnot. table_step (sameUsers_refl (users (db w))).
  all: try discriminate Hnot.
  all: try match goal with H : dataId _ = Some _ |- _ => by cbn in H end.
  all: first [ apply sameUsers_refl | apply sameUsers_alter ].
Qed.

Lemma size_alter (f : User → User) i (us : gmap string User) : size (alter f i us) = size us.
Proof.
  destruct (us !! i) as [u|] eqn:Hu.
  - rewrite (alter_alt_Some _ _ _ _ Hu). by apply map_size_insert_Some.
  - f_equal. apply map_eq. intros j. rewrite lookup_alter. case_decide; [subst|done].
    by rewrite Hu.
Qed.

Lemma size_rename (row user : User) i j (us : gmap string User) :
  us !! i = Some user → us !! j = None → size (<[j := row]> (delete i us)) = size us.
Proof.
  intros Hi Hj. rewrite map_size_insert_None by by apply lookup_delete_None; right.
  rewrite map_size_delete_Some by done.
  assert (size us ≠ 0%nat) by (apply (map_size_ne_0_lookup_2 us i); eauto).
  by destruct (size us).
Qed.

(** No event adds a user or removes one. *)
Lemma step_user_count e w : size (users (db (step e w))) = size (users (db w)).
Proof.
  pose (R := λ us us' : gmap string User, size us' = size us).
  change (R (users (db w)) (users (db (step e w)))).
  table_step (eq_refl (size (users (db w)))).
  all: subst R; cbn beta.
  all: first [ done | apply size_alter
             | by cbn in *
             | eapply size_rename; [eassumption|by apply eq_None_not_Some] ].
Qed.

Lemma step_roles e w :
  isUserUpdate e = false → rolesKept (users (db w)) (users (db (step e w))).
Proof.
  intros Hnot. table_step (rolesKept_refl (users (db w))).
  all: try discriminate Hnot.
  all: try match goal with H : dataId _ = Some _ |- _ => by cbn in H end.
  all: first [ apply rolesKept_refl | intros ?; by apply lookup_alter_fmap ].
Qed.

Lemma step_balances e w :
  ledgerRoute e = false → balancesKept (users (db w)) (users (db (step e w))).
Proof.
  intros Hnot. table_step (balancesKept_refl (users (db w))).
  all: try discriminate Hnot.
  all: try match goal with H : dataId _ = Some _ |- _ => by cbn in H end.
  all: first [ apply balancesKept_refl | intros ?; by apply lookup_alter_fmap ].
Qed.

(** X11.  No event changes the number of users.  A user is renamed, and a
    role is changed, by the administrators' user update alone: through any
    sequence of other events, requests of the user included, the ids in the
    users table and every role stay what they were. *)
Theorem roles_change_only_by_user_update es w :
  size (users (db (run es w))) = size (users (db w))
  ∧ (Forall (λ e, isUserUpdate e = false) es →
     ∀ u, (is_Some (users (db (run es w)) !! u) ↔ is_Some (users (db w) !! u))
          ∧ role <$> users (db (run es w)) !! u = role <$> users (db w) !! u).
Proof.
  split.
  - induction es as [|e es IH] using rev_ind; [done|].
    rewrite run_snoc. etrans; [apply step_user_count|apply IH].
  - induction es as [|e es IH] using rev_ind; [done|].
    intros [Hes He%List.Forall_inv]%Forall_app u.
    rewrite run_snoc. destruct (IH Hes u) as [IHu IHr]. split.
    + etrans; [by apply step_users|done].
    + by rewrite (step_roles _ _ He).
Qed.

Lemma roles_change_only_by_user_update_witness :
  Forall (λ e, isUserUpdate e = false)
    [PatchProfile (Some "alice"); PostBookings (Some "alice") 0 NoDate "gala";
     PatchAdminUserBalance (Some "root") "alice" 700]
  ∧ role <$> users (db (run [PatchProfile (Some "alice"); PostBookings (Some "alice") 0 NoDate "gala";
                             PatchAdminUserBalance (Some "root") "alice" 700] sample))
             !! "alice"
    = Some RoleUser.
Proof.
  assert (Forall (λ e, isUserUpdate e = false)
            [PatchProfile (Some "alice"); PostBookings (Some "alice") 0 NoDate "gala";
             PatchAdminUserBalance (Some "root") "alice" 700]) as Hes
    by (repeat constructor).
  split; [exact Hes|].
  exact (proj2 (proj2 (roles_change_only_by_user_update _ sample) Hes "alice")).
Defined.

(** X12.  A balance is written by five routes only: booking creation, the booking
    and deposit status updates, and the administrators' user update and
    balance adjustment.  Every other event (socket traffic, messages,
    campaigns, offerings, deposit creation, notifications, settings, the
    profile update) leaves every balance as it was. *)
Theorem balances_change_only_by_ledger_routes es w u :
  Forall (λ e, ledgerRoute e = false) es →
  balanceOf (run es w) u = balanceOf w u.
Proof.
  induction es as [|e es IH] using rev_ind; [done|].
  intros [Hes He%List.Forall_inv]%Forall_app.
  rewrite run_snoc. unfold balanceOf in *. rewrite (step_balances _ _ He). by apply IH.
Qed.

Lemma balances_change_only_by_ledger_routes_witness :
  Forall (λ e, ledgerRoute e = false)
    [PostDeposits (Some "alice") 250000 "ETH"; PatchProfile (Some "alice");
     PostMessages (Some "alice") "booking-0" "booking" 0 "hello"]
  ∧ balanceOf (run [PostDeposits (Some "alice") 250000 "ETH"; PatchProfile (Some "alice");
                    PostMessages (Some "alice") "booking-0" "booking" 0 "hello"] sample)
      "alice" = Some 10000.
Proof.
  assert (Forall (λ e, ledgerRoute e = false)
            [PostDeposits (Some "alice") 250000 "ETH"; PatchProfile (Some "alice");
             PostMessages (Some "alice") "booking-0" "booking" 0 "hello"]) as Hes
    by (repeat constructor).
  split; [exact Hes|].
  exact (balances_change_only_by_ledger_routes _ sample "alice" Hes).
Defined.


(** ** Booking, repricing, cancelling *)




Section book_then_cancel.
Variables (w : World) (sub admin : string) (celebrityId : nat) (eventDate : EventDate).
Variables (details : string) (user adminUser : User) (celebrity : Celebrity).
Variable change : PartialCelebrity.
Hypothesis user_row : users (db w) !! sub = Some user.
Hypothesis admin_named : admin ≠ "".
Hypothesis admin_row : users (db w) !! admin = Some adminUser.
Hypothesis admin_role : role adminUser = RoleAdmin.
Hypothesis celebrity_row : celebrities (db w) !! celebrityId = Some celebrity.
Hypothesis enough : celebPriceUsd celebrity ≤ balanceUsd user.
Hypothesis date_valid : eventDate ≠ InvalidDate.
Hypothesis balance_fits : fitsColumn (balanceUsd user) = true.
Hypothesis price_fits : fitsColumn (celebPriceUsd celebrity) = true.
Hypothesis debit_fits : fitsColumn (balanceUsd user - celebPriceUsd celebrity) = true.

Let id := length (bookings (db w)).
Let w1 := step (PostBookings (Some sub) celebrityId eventDate details) w.
Let w2 := step (PatchCelebrities (Some admin) celebrityId change) w1.
Let w3 := step (PatchBookingStatus (Some admin) id "cancelled") w2.

End book_then_cancel.


(** ** Booking requests that are refused *)



(** ** Balance adjustments *)

(** X15.  Adjustments in whole cents.  An adjustment of a stored balance that
    leaves it within the range of the column returns the adjusted row; two
    such adjustments in a row amount to one adjustment by the sum, and an
    adjustment followed by the opposite adjustment leaves the database as it
    was.  An adjustment that would leave the range is refused and writes
    nothing, and for an id that has no row the call returns no row and writes
    nothing. *)
Theorem adjustments_add id a b d :
  match users d !! id with
  | None => updateUserBalance id a d = (Ok None, d)
  | Some user =>
      if fitsColumn (balanceUsd user + a) then
        (updateUserBalance id a d).1
        = Ok (Some (mkUser (balanceUsd user + a) (role user) (userStatus user)))
        ∧ (fitsColumn (balanceUsd user + a + b) = true →
           (updateUserBalance id a ≫= λ _, updateUserBalance id b) d
           = updateUserBalance id (a + b) d)
        ∧ (fitsColumn (balanceUsd user) = true →
           ((updateUserBalance id a ≫= λ _, updateUserBalance id (- a)) d).2 = d)
      else updateUserBalance id a d = (Throw numericOverflow, d)
  end.
Proof.
  assert (∀ x y, alter (λ u, setBalance (balanceUsd u + y) u) id
                   (alter (λ u, setBalance (balanceUsd u + x) u) id (users d))
                 = alter (λ u, setBalance (balanceUsd u + (x + y)) u) id (users d)) as Hadd.
  { intros x y. rewrite alter_alter_eq. apply alter_ext. intros [bal r st] _. cbn.
    unfold setBalance. cbn. f_equal. lia. }
  unfold updateUserBalance.
  unfold mbind, mret, St_bind, St_ret, st_bind, st_ret, get_state, modify_state, throw.
  unfold set_users. cbn.
  destruct (users d !! id) as [user|] eqn:Huser; [|done].
  destruct (fitsColumn (balanceUsd user + a)) eqn:Hfits; [|done]. cbn.
  rewrite !lookup_alter_eq, Huser. cbn. split; [done|]. split.
  - intros Hsum. rewrite Hsum. cbn.
    replace (balanceUsd user + (a + b)) with (balanceUsd user + a + b) by lia.
    rewrite Hsum. cbn. by rewrite Hadd.
  - intros Hback. replace (balanceUsd user + a + - a) with (balanceUsd user) by lia.
    rewrite Hback. cbn. rewrite Hadd. replace (a + - a) with 0 by lia.
    rewrite alter_id; [by destruct d|]. intros [bal r st] _. unfold setBalance. cbn.
    f_equal. lia.
Qed.

Section admin_adjustment.
Variables (w : World) (admin id : string) (amount : Z) (adminUser : User).
Hypothesis admin_named : admin ≠ "".
Hypothesis admin_row : users (db w) !! admin = Some adminUser.
Hypothesis admin_role : role adminUser = RoleAdmin.

(** X16.  An administrator's adjustment of the balance of a stored user by an
    amount in whole cents.  When the adjusted balance is within the range of
    the column the request is answered 200 with the adjusted row: the balance
    is the stored one plus the amount, one entry with the administrator's id
    is appended to the administrators' log and one stored notification for
    the user, and no frame is sent to any socket.  When it is not, the
    request is answered 400 and nothing is written. *)
Theorem adjustment_is_recorded target :
  users (db w) !! id = Some target →
  let adjusted := mkUser (balanceUsd target + amount) (role target) (userStatus target) in
  (fitsColumn (balanceUsd target + amount) = true →
   (patchAdminUserBalance (Some admin) id amount w).1
   = Ok (Json 200 (BodyUser (Some adjusted)))
   ∧ users (db (patchAdminUserBalance (Some admin) id amount w).2)
     = <[id := adjusted]> (users (db w))
   ∧ adminLogs (db (patchAdminUserBalance (Some admin) id amount w).2)
     = adminLogs (db w) ++ [mkAdminLog admin "Adjusted user balance"]
   ∧ notifications (db (patchAdminUserBalance (Some admin) id amount w).2)
     = notifications (db w) ++ [mkNotification id "Balance Adjustment" "wallet" false]
   ∧ connections (patchAdminUserBalance (Some admin) id amount w).2 = connections w)
  ∧ (fitsColumn (balanceUsd target + amount) = false →
     patchAdminUserBalance (Some admin) id amount w
     = (Ok (Json 400 (BodyMessage "numeric field overflow")), w)).
Proof using admin_named admin_row admin_role.
  intros Htarget adjusted. subst adjusted. split; intros Hfits.
  - change (wp (patchAdminUserBalance (Some admin) id amount)
              (λ r w', r = Ok (Json 200 (BodyUser
                              (Some (mkUser (balanceUsd target + amount) (role target)
                                       (userStatus target)))))
                       ∧ users (db w')
                         = <[id := mkUser (balanceUsd target + amount) (role target)
                                     (userStatus target)]> (users (db w))
                       ∧ adminLogs (db w')
                         = adminLogs (db w) ++ [mkAdminLog admin "Adjusted user balance"]
                       ∧ notifications (db w')
                         = notifications (db w)
                           ++ [mkNotification id "Balance Adjustment" "wallet" false]
                       ∧ connections w' = connections w) w).
    wp_run; try done; try congruence; try absent_row.
    all: repeat match goal with
         | H : alter _ _ _ !! id = Some _ |- _ =>
             rewrite lookup_alter_eq, Htarget in H; cbn in H; injection H as <-
         end.
    all: by rewrite ?lookup_alter_eq, ?Htarget, (alter_alt_Some _ _ _ _ Htarget).
  - apply wp_pair. wp_run; try done; try congruence; try absent_row.
    all: split; [done|by destruct w].
Qed.

(** X17.  The same request for an id with no row is answered 400: no balance
    changes and no notification is stored, but the entry in the
    administrators' log, which is written before the notification is refused,
    stays. *)
Theorem adjustment_of_unknown_user :
  users (db w) !! id = None →
  (patchAdminUserBalance (Some admin) id amount w).1
  = Ok (Json 400 (BodyMessage (message foreignKeyViolation)))
  ∧ users (db (patchAdminUserBalance (Some admin) id amount w).2) = users (db w)
  ∧ adminLogs (db (patchAdminUserBalance (Some admin) id amount w).2)
    = adminLogs (db w) ++ [mkAdminLog admin "Adjusted user balance"]
  ∧ notifications (db (patchAdminUserBalance (Some admin) id amount w).2)
    = notifications (db w).
Proof using admin_named admin_row admin_role.
  intros Htarget.
  change (wp (patchAdminUserBalance (Some admin) id amount)
            (λ r w', r = Ok (Json 400 (BodyMessage (message foreignKeyViolation)))
                     ∧ users (db w') = users (db w)
                     ∧ adminLogs (db w')
                       = adminLogs (db w) ++ [mkAdminLog admin "Adjusted user balance"]
                     ∧ notifications (db w') = notifications (db w)) w).
  assert (alter (λ u, setBalance (balanceUsd u + amount) u) id (users (db w)) = users (db w))
    as Hsame by (apply alter_id; intros x Hx; congruence).
  wp_run; try done; try congruence; try absent_row.
  all: rewrite ?Hsame in *; try congruence; try done.
Qed.
End admin_adjustment.

Lemma adjustment_is_recorded_witness :
  users (db sample) !! "root" = Some (mkUser 0 RoleAdmin "active")
  ∧ users (db sample) !! "alice" = Some (mkUser 10000 RoleUser "active")
  ∧ users (db (patchAdminUserBalance (Some "root") "alice" (-2500) sample).2)
    = <["alice" := mkUser 7500 RoleUser "active"]> (users (db sample))
  ∧ adminLogs (db (patchAdminUserBalance (Some "root") "alice" (-2500) sample).2)
    = [mkAdminLog "root" "Adjusted user balance"].
Proof.
  do 2 (split; [reflexivity|]).
  pose proof (proj1 (adjustment_is_recorded sample "root" "alice" (-2500)
                       (mkUser 0 RoleAdmin "active") ltac:(done) eq_refl eq_refl
                       (mkUser 10000 RoleUser "active") eq_refl) eq_refl)
    as (_ & Husers & Hlogs & _).
  split; [exact Husers|exact Hlogs].
Defined.

Lemma adjustment_of_unknown_user_witness :
  users (db sample) !! "root" = Some (mkUser 0 RoleAdmin "active")
  ∧ users (db sample) !! "bob" = None
  ∧ users (db (patchAdminUserBalance (Some "root") "bob" 2500 sample).2) = users (db sample).
Proof.
  do 2 (split; [reflexivity|]).
  exact (proj1 (proj2
    (adjustment_of_unknown_user sample "root" "bob" 2500 (mkUser 0 RoleAdmin "active")
       ltac:(done) eq_refl eq_refl eq_refl))).
Defined.

(** ** The price that divides a deposit *)

(** X18.  The price returned by the lookup is never zero, whatever the asset,
    when the request to the price service fails or its answer is null or an
    object that holds, under the coin id, nothing, an entry without [usd] or
    an entry whose [usd] is a number; so the division of the deposit's amount
    by it is defined.  The price of an asset for which the table of coin ids
    has no entry, own or inherited, is 1 without regard to the service. *)
Theorem price_never_zero coin live :
  Qnum (getCryptoPrice coin live) ≠ 0
  ∧ (COINGECKO_IDS coin = None → getCryptoPrice coin live = 1%Q).
Proof.
  split.
  - unfold getCryptoPrice.
    destruct (COINGECKO_IDS coin) as [coinId|]; [|done].
    destruct live as [|[|entries]]; try (repeat case_decide; done).
    cbn. unfold orOne. destruct (mjoin (entries !! coinId)) as [q|]; [|done].
    destruct (Qnum q =? 0) eqn:Hq; [done|]. by apply Z.eqb_neq.
  - intros Hnone. unfold getCryptoPrice. by rewrite Hnone.
Qed.

(** X19.  For an asset of the table, a price that the service reports and that is
    not zero is returned as it is. *)
Theorem live_price_returned coin coinId entries usd :
  COINGECKO_IDS coin = Some coinId →
  entries !! coinId = Some (Some usd) →
  Qnum usd ≠ 0 →
  getCryptoPrice coin (FetchJson (DataObject entries)) = usd.
Proof.
  intros Hid Hentry Hnonzero. unfold getCryptoPrice, usdOf.
  rewrite Hid, Hentry. cbn. apply Z.eqb_neq in Hnonzero. by rewrite Hnonzero.
Qed.

Lemma live_price_returned_witness :
  COINGECKO_IDS "ETH" = Some "ethereum"
  ∧ getCryptoPrice "ETH" (FetchJson (DataObject {[ "ethereum" := Some (341275 # 100) ]}))
    = (341275 # 100).
Proof.
  split; [reflexivity|].
  exact (live_price_returned "ETH" "ethereum" {[ "ethereum" := Some (341275 # 100) ]}
           (341275 # 100) eq_refl eq_refl ltac:(discriminate)).
Defined.


(** ** Message threads *)

Section collect.
Context (P : Message → Prop) `{∀ m, Decision (P m)}.

Let collect (ms : list Message) : list (string * Message) :=
  foldl (λ threadMap msg, if decide (P msg) then remember threadMap msg else threadMap) [] ms.

(** The map built from the messages [ms], taken in turn, of which those
    satisfying [P] are entered: its keys are distinct, every thread with a
    message satisfying [P] has a key, and the message kept under a key is the
    first of [ms] in that thread that satisfies [P]. *)
Lemma collect_spec ms :
  NoDup (collect ms).*1
  ∧ (∀ m, m ∈ ms → P m → threadId m ∈ (collect ms).*1)
  ∧ (∀ k m, (k, m) ∈ collect ms →
       threadId m = k ∧ P m
       ∧ ∃ l1 l2, ms = l1 ++ m :: l2 ∧ ∀ m', m' ∈ l1 → P m' → threadId m' ≠ k).
Proof using Type.
  induction ms as [|x ms (Hnodup & Hall & Hfirst)] using rev_ind.
  { split; [constructor|]. split; [by intros m Hm%elem_of_nil|by intros k m Hm%elem_of_nil]. }
  assert (collect (ms ++ [x])
          = if decide (P x) then remember (collect ms) x else collect ms) as ->.
  { unfold collect. by rewrite foldl_app. }
  assert (∀ k m, (k, m) ∈ collect ms →
            threadId m = k ∧ P m
            ∧ ∃ l1 l2, ms ++ [x] = l1 ++ m :: l2
                       ∧ ∀ m', m' ∈ l1 → P m' → threadId m' ≠ k) as Hfirst'.
  { intros k m Hm. destruct (Hfirst k m Hm) as (Hk & Hc & l1 & l2 & -> & Hl1).
    split; [done|]. split; [done|]. exists l1, (l2 ++ [x]).
    split; [by rewrite <- app_assoc|done]. }
  destruct (decide (P x)) as [Hx|Hx].
  - unfold remember. destruct (decide (threadId x ∈ (collect ms).*1)) as [Hin|Hnew].
    + split; [done|]. split; [|done].
      intros m [Hm|Hm%list_elem_of_singleton]%elem_of_app Hc; [by apply Hall|by subst m].
    + rewrite fmap_app. cbn. split; [|split].
      * apply NoDup_app. split; [done|]. split; [|apply NoDup_singleton].
        intros k Hk Hk'%list_elem_of_singleton. by subst k.
      * intros m [Hm|Hm%list_elem_of_singleton]%elem_of_app Hc; apply elem_of_app;
          [left; by apply Hall|right; subst m; by apply list_elem_of_singleton].
      * intros k m [Hm|Hm%list_elem_of_singleton]%elem_of_app; [by apply Hfirst'|].
        injection Hm as -> ->.
        split; [done|]. split; [done|]. exists ms, []. split; [done|].
        intros m' Hm' Hc' Heq. apply Hnew. rewrite <- Heq. by apply Hall.
  - split; [done|]. split; [|done].
    intros m [Hm|Hm%list_elem_of_singleton]%elem_of_app Hc; [by apply Hall|by subst m].
Qed.
End collect.

Lemma threadMapFor_spec user ms :
  NoDup (threadMapFor user ms).*1
  ∧ (∀ m, m ∈ ms → concerns user m → threadId m ∈ (threadMapFor user ms).*1)
  ∧ (∀ k m, (k, m) ∈ threadMapFor user ms →
       threadId m = k ∧ concerns user m
       ∧ ∃ l1 l2, ms = l1 ++ m :: l2
                  ∧ ∀ m', m' ∈ l1 → concerns user m' → threadId m' ≠ k).
Proof. apply (collect_spec (concerns user)). Qed.

Lemma threadMapAll_spec ms :
  NoDup (foldl remember [] ms).*1
  ∧ (∀ m, m ∈ ms → threadId m ∈ (foldl remember [] ms).*1)
  ∧ (∀ k m, (k, m) ∈ foldl remember [] ms →
       threadId m = k
       ∧ ∃ l1 l2, ms = l1 ++ m :: l2 ∧ ∀ m', m' ∈ l1 → threadId m' ≠ k).
Proof.
  destruct (collect_spec (λ _, True) ms) as (Hnodup & Hall & Hfirst).
  split; [exact Hnodup|]. split; [intros m Hm; by apply Hall|].
  intros k m Hm. destruct (Hfirst k m Hm) as (Hk & _ & l1 & l2 & Hms & Hl1).
  split; [done|]. exists l1, l2. split; [done|]. intros m' Hm'. by apply Hl1.
Qed.

Lemma elem_of_idsWhere {A} (P : A → Prop) `{∀ x, Decision (P x)} (rows : list A) i :
  i ∈ idsWhere P rows ↔ ∃ x, rows !! i = Some x ∧ P x.
Proof.
  unfold idsWhere. rewrite list_elem_of_fmap. split.
  - intros ([j x] & Hi & [HP Hin]%list_elem_of_filter). cbn in *. subst i.
    apply elem_of_lookup_imap in Hin as (j' & x' & Heq & Hx). injection Heq as -> ->.
    by exists x'.
  - intros (x & Hx & HP). exists (i, x). split; [done|].
    apply list_elem_of_filter. split; [done|]. apply elem_of_lookup_imap. by exists i, x.
Qed.

(** X20.  The threads listed for a user have distinct ids; each is the thread of
    a booking or a campaign of the user, named [booking-<id>] or
    [campaign-<id>]; its last message carries that thread id, was sent by
    the user or by an administrator, and no message stored after it in the
    same thread was sent by the user or an administrator.  The database is
    not written. *)
Theorem threads_of_user user d :
  ∃ ts, getThreadsForUser user d = (Ok ts, d)
    ∧ NoDup (threadKey <$> ts)
    ∧ ∀ t, t ∈ ts →
        ((∃ i b, bookings d !! i = Some b ∧ bookingUserId b = user
                 ∧ threadKey t = "booking-" +:+ pretty i)
         ∨ (∃ i c, campaigns d !! i = Some c ∧ campaignUserId c = user
                   ∧ threadKey t = "campaign-" +:+ pretty i))
        ∧ threadId (lastMessage t) = threadKey t
        ∧ threadKind t = threadType (lastMessage t)
        ∧ threadReference t = referenceId (lastMessage t)
        ∧ concerns user (lastMessage t)
        ∧ ∃ older newer, messages d = older ++ lastMessage t :: newer
                         ∧ ∀ m, m ∈ newer → concerns user m → threadId m ≠ threadKey t.
Proof.
  destruct (threadMapFor_spec user (reverse (messages d))) as (Hnodup & _ & Hfirst).
  eexists. split; [reflexivity|]. split.
  - rewrite <- list_fmap_compose.
    change (NoDup (filter (λ entry, entry.1 ∈ bookingThreadIds user d
                                    ∨ entry.1 ∈ campaignThreadIds user d)
                     (threadMapFor user (reverse (messages d)))).*1).
    eapply sublist_NoDup; [exact Hnodup|]. apply fmap_sublist, sublist_filter.
  - intros t ([k m] & -> & [Hmine Hin]%list_elem_of_filter)%list_elem_of_fmap. cbn in *.
    destruct (Hfirst k m Hin) as (Hk & Hc & l1 & l2 & Hms & Hl1).
    split; [|split; [done|split; [done|split; [done|split; [done|]]]]].
    + destruct Hmine as [Hb|Hcp]; [left|right].
      * apply list_elem_of_fmap in Hb as (i & -> & (b & Hb & Howner)%elem_of_idsWhere).
        by exists i, b.
      * apply list_elem_of_fmap in Hcp as (i & -> & (c & Hcp & Howner)%elem_of_idsWhere).
        by exists i, c.
    + exists (reverse l2), (reverse l1). split.
      * apply (inj reverse). rewrite Hms, reverse_app, reverse_cons, !reverse_involutive.
        rewrite <- (app_assoc l1 [m] l2). reflexivity.
      * intros m' Hm' Hc'. rewrite elem_of_reverse in Hm'. by apply Hl1.
Qed.

(** X21.  No thread of the user is left out: when a message of a thread that
    belongs to a booking or campaign of the user was sent by the user or by
    an administrator, the thread is in the list. *)
Theorem threads_of_user_complete user d m :
  m ∈ messages d →
  concerns user m →
  threadId m ∈ bookingThreadIds user d ∨ threadId m ∈ campaignThreadIds user d →
  ∃ ts, getThreadsForUser user d = (Ok ts, d) ∧ threadId m ∈ threadKey <$> ts.
Proof.
  intros Hm Hc Hmine.
  destruct (threadMapFor_spec user (reverse (messages d))) as (_ & Hall & _).
  eexists. split; [reflexivity|].
  assert (threadId m ∈ (threadMapFor user (reverse (messages d))).*1) as Hkey.
  { apply Hall; [by apply elem_of_reverse|done]. }
  apply list_elem_of_fmap in Hkey as ([k m0] & Hk & Hin). cbn in Hk. subst k.
  apply list_elem_of_fmap.
  exists (mkThread (threadId m) (threadType m0) (referenceId m0) m0). split; [done|].
  apply list_elem_of_fmap. exists (threadId m, m0). split; [done|].
  by apply list_elem_of_filter.
Qed.

Lemma threads_of_user_complete_witness :
  ∃ ts, getThreadsForUser "alice"
          (db (run [PostMessages (Some "alice") "booking-0" "booking" 0 "hello"] sample))
        = (Ok ts, db (run [PostMessages (Some "alice") "booking-0" "booking" 0 "hello"] sample))
        ∧ "booking-0" ∈ threadKey <$> ts.
Proof.
  exact (threads_of_user_complete "alice"
           (db (run [PostMessages (Some "alice") "booking-0" "booking" 0 "hello"] sample))
           (mkMessage "booking-0" ThreadBooking 0 SenderUser "alice" "hello")
           ltac:(vm_compute; apply list_elem_of_singleton; reflexivity)
           ltac:(left; reflexivity)
           ltac:(left; vm_compute; apply list_elem_of_singleton; reflexivity)).
Defined.

(** X22.  The threads listed for an administrator have distinct ids; the last
    message of each is the newest message stored in that thread; and the user
    shown with a thread is the stored owner of the booking or campaign that
    this last message refers to. *)
Theorem threads_of_all d :
  ∃ ts, getAllThreads d = (Ok ts, d)
    ∧ NoDup (threadKey ∘ thread <$> ts)
    ∧ ∀ t, t ∈ ts →
        threadId (lastMessage (thread t)) = threadKey (thread t)
        ∧ (∃ owner, threadOwner d (lastMessage (thread t)) = Some owner
                    ∧ users d !! owner = Some (threadUser t))
        ∧ ∃ older newer, messages d = older ++ lastMessage (thread t) :: newer
                         ∧ ∀ m, m ∈ newer → threadId m ≠ threadKey (thread t).
Proof.
  destruct (threadMapAll_spec (reverse (messages d))) as (Hnodup & _ & Hfirst).
  eexists. split; [reflexivity|].
  set (pick := λ entry : string * Message,
         owner ← threadOwner d entry.2;
         user ← users d !! owner;
         Some (mkThreadOfUser
                 (mkThread entry.1 (threadType entry.2) (referenceId entry.2) entry.2) user)).
  assert (∀ entry t, pick entry = Some t → threadKey (thread t) = entry.1
                                           ∧ lastMessage (thread t) = entry.2
                                           ∧ ∃ owner, threadOwner d entry.2 = Some owner
                                                      ∧ users d !! owner = Some (threadUser t))
    as Hpick.
  { intros entry t Ht. unfold pick in Ht.
    destruct (threadOwner d entry.2) as [owner|] eqn:Howner; [|done]. cbn in Ht.
    destruct (users d !! owner) as [user|] eqn:Huser; [|done]. cbn in Ht.
    injection Ht as <-. cbn. eauto. }
  split.
  - assert (∀ tm : list (string * Message),
              (threadKey ∘ thread <$> omap pick tm) `sublist_of` tm.*1) as Hsub.
    { induction tm as [|entry tm IH]; [done|]. cbn.
      destruct (pick entry) as [t|] eqn:Ht; cbn.
      - destruct (Hpick _ _ Ht) as (-> & _). by constructor.
      - by constructor. }
    eapply sublist_NoDup; [exact Hnodup|apply Hsub].
  - intros t (entry & Hin & Ht)%list_elem_of_omap.
    destruct (Hpick _ _ Ht) as (Hkey & Hlast & Howner). destruct entry as [k m]. cbn in *.
    rewrite Hkey, Hlast.
    destruct (Hfirst k m Hin) as (Hk & l1 & l2 & Hms & Hl1).
    split; [done|]. split; [done|].
    exists (reverse l2), (reverse l1). split.
    + apply (inj reverse). rewrite Hms, reverse_app, reverse_cons, !reverse_involutive.
      rewrite <- (app_assoc l1 [m] l2). reflexivity.
    + intros m' Hm'. rewrite elem_of_reverse in Hm'. by apply Hl1.
Qed.

(** ** Sending a message *)




Section send_message.
Variables (w : World) (sub key body : string) (reference : nat).
Variables (user : User) (booking : Booking).
Hypothesis user_row : users (db w) !! sub = Some user.
Hypothesis booking_row : bookings (db w) !! reference = Some booking.
Hypothesis allowed : bookingUserId booking = sub ∨ role user = RoleAdmin.
Hypothesis key_fits : fitsWidth 100 key = true.

Let msg := mkMessage key ThreadBooking reference
             (if bool_decide (role user = RoleAdmin) then SenderAdmin else SenderUser) sub body.

End send_message.



(** ** The administrators' figures *)



Section approval_figures.
Variables (w : World) (admin : string) (id : nat) (hash : option string).
Variables (adminUser owner : User) (deposit : Deposit).
Hypothesis admin_named : admin ≠ "".
Hypothesis admin_row : users (db w) !! admin = Some adminUser.
Hypothesis admin_role : role adminUser = RoleAdmin.
Hypothesis deposit_row : deposits (db w) !! id = Some deposit.
Hypothesis owner_row : users (db w) !! depositUserId deposit = Some owner.
Hypothesis pending : depositStatus deposit = DepositPending.

Let w' := step (PatchDepositStatus (Some admin) id "approved" hash) w.

End approval_figures.

